(** * ProductDetails chaincode: a shallow embedding and its properties

    The Go source (ProductDetails.go) is a Hyperledger Fabric chaincode with
    four transactions: [AddProduct], [RetrieveProductDetails],
    [UpdateProductState] and [LogProductMovement].  Each one reads and writes
    the world state through the stub of its transaction context.

    Layout of this file:
    - [Host]: the world state and the transaction timestamp, as the stub
      exposes them;
    - the [Tx] monad: state passing with errors, where a failing call keeps
      the writes made before the failure;
    - [Codec] and [Allocator]: what the chaincode takes from outside
      (encoding/json, and the identifier allocator the source calls);
    - the four transactions, line by line;
    - [Ref]: one concrete codec and allocator, used to run the model;
    - the properties. *)

From Stdlib Require Import ZArith NArith Lia List Bool.
From Stdlib.Strings Require Import Ascii String Byte.
From Stdlib Require Import DecimalString DecimalN.
From stdpp Require Import base option gmap strings.

Local Open Scope string_scope.
Local Open Scope N_scope.

(** ** Results and errors *)

Inductive Result (E A : Type) : Type :=
| Ok (a : A)
| Err (e : E).
Arguments Ok {E A} a.
Arguments Err {E A} e.

(** Go [[]byte]: a sequence of bytes.  [None] stands for the [nil] slice that
    [GetState] returns for a key with no value. *)
Definition bytes : Type := list byte.

(** The message of an [error] value of the host. *)
Definition hostError : Type := string.

(** ** The host: world state and transaction timestamp *)

Module Host.

(** What [ctx.GetStub()] gives access to.  [txSeconds] is the seconds
    field of the transaction timestamp; [None] when [GetTxTimestamp]
    returns [(nil, err)].

    The ledger is one that answers: [GetState] and [PutState] keep their
    error in their type, and the chaincode keeps its branch for it, but a
    fault of the peer or of the ledger is not part of this model.  A read
    sees the writes of the transactions before it; no transaction of this
    chaincode reads a key after writing it. *)
Record Stub : Type := mkStub {
  state : gmap string bytes;
  txSeconds : option Z;
}.

Definition withState (m : gmap string bytes) (s : Stub) : Stub :=
  {| state := m; txSeconds := txSeconds s |}.

Definition withTx (t : option Z) (s : Stub) : Stub :=
  {| state := state s; txSeconds := t |}.

(** [GetState(key)]: the value under [key], [nil] when there is none. *)
Definition GetState (key : string) (s : Stub)
  : Result hostError (option bytes) * Stub :=
  (Ok (state s !! key), s).

(** [PutState(key, value)]: a full overwrite of the value under [key]. *)
Definition PutState (key : string) (value : bytes) (s : Stub)
  : Result hostError unit * Stub :=
  (Ok tt, withState (<[key := value]> (state s)) s).

(** [GetTxTimestamp()]: the timestamp or an error. *)
Definition GetTxTimestamp (s : Stub) : Result hostError Z * Stub :=
  match txSeconds s with
  | Some t => (Ok t, s)
  | None => (Err "transaction timestamp unavailable", s)
  end.

(** [timestamp.GetSeconds()] on a pointer that may be nil: the generated
    getter answers 0 for nil. *)
Definition GetSeconds (timestamp : option Z) : Z :=
  match timestamp with
  | Some t => t
  | None => 0%Z
  end.

End Host.
Import Host.

(** The conversion [uint64(x)] of an [int64]: the value modulo [2^64]. *)
Definition uint64 (x : Z) : N := Z.to_N (x mod 2 ^ 64).

(** The sum of two [uint64]: the sum modulo [2^64]. *)
Definition add64 (a b : N) : N := (a + b) mod 2 ^ 64.

(** [fmt.Sprintf("%d", n)] for an unsigned [n]. *)
Definition decimal (n : N) : string := NilEmpty.string_of_uint (N.to_uint n).

(** ** Data model *)

(** [type ProductState int], with the constants numbered by [iota].  The type
    is an integer: a decoded record or a caller can carry any value. *)
Definition ProductState : Type := Z.

Definition PRODUCT_REGISTERED : ProductState := 0%Z.
Definition QUALITY_ASSURANCE : ProductState := 1%Z.
Definition PRODUCT_TRANSIT : ProductState := 2%Z.
Definition PRODUCT_IN_INVENTORY : ProductState := 3%Z.
Definition PRODUCT_SOLD : ProductState := 4%Z.
Definition PRODUCT_RECALLED : ProductState := 5%Z.
Definition CONSUMPTION : ProductState := 6%Z.
Definition PENDING : ProductState := 7%Z.
Definition VALIDATING : ProductState := 8%Z.
Definition PUBLISHING : ProductState := 9%Z.

Record Product : Type := mkProduct {
  ID : N;
  Name : string;
  Description : string;
  ManufactureDate : N;
  BatchNumber : string;
  State : ProductState;
}.

(** The assignment [product.State = s]. *)
Definition set_State (product : Product) (s : ProductState) : Product :=
  {| ID := ID product;
     Name := Name product;
     Description := Description product;
     ManufactureDate := ManufactureDate product;
     BatchNumber := BatchNumber product;
     State := s |}.

Module History.
Record ProductHistory : Type := mkProductHistory {
  Timestamp : N;
  Action : string;
  Location : string;
  State : ProductState;
}.

(** The assignment [productHistory.Timestamp = t]. *)
Definition set_Timestamp (h : ProductHistory) (t : N) : ProductHistory :=
  {| Timestamp := t;
     Action := Action h;
     Location := Location h;
     State := State h |}.
End History.
Abbreviation ProductHistory := History.ProductHistory.

(** ** Errors

    The source builds its errors with [fmt.Errorf]; one constructor per
    message.  The last three belong to the identifier allocator. *)
Inductive error : Type :=
| ErrReadProduct (cause : hostError)
    (* "failed to read product from the ledger: %v" *)
| ErrProductNotExist (productID : N)
    (* "product with ID %d does not exist" *)
| ErrUnmarshalProduct
    (* "failed to unmarshal product JSON: %v" *)
| ErrInvalidTransition
    (* "invalid state transition" *)
| ErrPutProduct (cause : hostError)
    (* "failed to put product on the ledger: %v" *)
| ErrPutUpdatedProduct (cause : hostError)
    (* "failed to put updated product state on the ledger: %v" *)
| ErrReadHistory (cause : hostError)
    (* "failed to read product history from the ledger: %v" *)
| ErrUnmarshalHistory
    (* "failed to unmarshal product history JSON: %v" *)
| ErrPutHistory (cause : hostError)
    (* "failed to put updated product history on the ledger: %v" *)
| ErrReadCounter (cause : hostError)
| ErrDecodeCounter
| ErrPutCounter (cause : hostError).

(** The error kinds of the design, and the kind of each error. *)
Inductive ErrorKind : Type :=
| NotFoundError
| DecodeError
| InvalidTransitionError
| StoreWriteError
| StoreReadError.

Definition kind (e : error) : ErrorKind :=
  match e with
  | ErrReadProduct _ | ErrReadHistory _ | ErrReadCounter _ => StoreReadError
  | ErrProductNotExist _ => NotFoundError
  | ErrUnmarshalProduct | ErrUnmarshalHistory | ErrDecodeCounter => DecodeError
  | ErrInvalidTransition => InvalidTransitionError
  | ErrPutProduct _ | ErrPutUpdatedProduct _ | ErrPutHistory _
  | ErrPutCounter _ => StoreWriteError
  end.

(** [failsWith r k]: the call failed with an error of kind [k]. *)
Definition failsWith {A : Type} (r : Result error A) (k : ErrorKind) : Prop :=
  match r with
  | Ok _ => False
  | Err e => kind e = k
  end.

(** ** Transactions: state passing with errors

    A transaction body runs against the stub and answers a value or an
    error, together with the stub as its writes left it.  An error stops the
    body; writes made before it stay in the returned stub. *)
Definition Tx (A : Type) : Type := Stub -> Result error A * Stub.

Definition ret {A : Type} (a : A) : Tx A := fun s => (Ok a, s).

Definition fail {A : Type} (e : error) : Tx A := fun s => (Err e, s).

Definition bind {A B : Type} (m : Tx A) (k : A -> Tx B) : Tx B :=
  fun s =>
    match m s with
    | (Ok a, s') => k a s'
    | (Err e, s') => (Err e, s')
    end.

(** A call of the stub followed by [if err != nil { return wrap(err) }]. *)
Definition host {A : Type} (call : Stub -> Result hostError A * Stub)
    (wrap : hostError -> error) : Tx A :=
  fun s =>
    match call s with
    | (Ok a, s') => (Ok a, s')
    | (Err e, s') => (Err (wrap e), s')
    end.

(** A call of the stub whose error is dropped ([v, _ := call()]): the value
    is [nil] on error. *)
Definition dropErr {A : Type} (call : Stub -> Result hostError A * Stub)
    : Tx (option A) :=
  fun s =>
    match call s with
    | (Ok a, s') => (Ok (Some a), s')
    | (Err _, s') => (Ok None, s')
    end.

(** A decoding step followed by [if err != nil { return e }]. *)
Definition decoded {A : Type} (r : option A) (e : error) : Tx A :=
  match r with
  | Some a => ret a
  | None => fail e
  end.

Declare Scope tx_scope.
Delimit Scope tx_scope with tx.
Notation "x <- m ;; k" := (bind m (fun x => k))
  (at level 100, m at next level, right associativity) : tx_scope.
Notation "m 'or_return' w" := (host m w)
  (at level 50, left associativity) : tx_scope.
Local Open Scope tx_scope.

(** ** What the chaincode takes from outside *)

(** encoding/json on the two shapes the chaincode stores, and the conversion
    [[]byte(product)] that [AddProduct] applies to the record it stores.
    [json.Marshal] has no error case on these shapes (unsigned and signed
    integers and strings only).  [json.Unmarshal] answers [None] for its
    error.  It is a function of the input bytes: decoding the same bytes a
    second time into the slice just decoded gives that slice again. *)
Class Codec : Type := {
  json_Marshal_Product : Product -> bytes;
  json_Unmarshal_Product : bytes -> option Product;
  json_Marshal_Histories : list ProductHistory -> bytes;
  json_Unmarshal_Histories : bytes -> option (list ProductHistory);
  bytes_of_Product : Product -> bytes;
}.

(** The parts of the identifier allocator that the design leaves to the
    implementation: the reserved key and the stored form of the counter. *)
Class Allocator : Type := {
  counterKey : string;
  encodeCounter : N -> bytes;
  decodeCounter : bytes -> option N;
}.

(** ** The chaincode *)

Section Chaincode.
Context `{codec : Codec} `{allocator : Allocator}.

(** [fmt.Sprintf("PRODUCT-%d", productID)] *)
Definition productKey (productID : N) : string :=
  "PRODUCT-" ++ decimal productID.

(** [fmt.Sprintf("PRODUCT-%d-HISTORY", productID)] *)
Definition historyKey (productID : N) : string :=
  "PRODUCT-" ++ decimal productID ++ "-HISTORY".

(** [Init] does nothing yet and answers no error. *)
Definition Init : Tx unit := ret tt.

(** Modelled from the spec: [generateNextProductID], which [AddProduct]
    calls and which the source defines nowhere.  The design (4.1) gives its
    contract: read the current counter value from the store, an absent
    value counting as zero; compute [id = counter + 1]; persist the new
    counter value; return [id].  The reserved key and the stored form of
    the counter come from [Allocator].  The source gives the type of the
    result: [AddProduct] assigns it to the field [ID], a [uint64], with no
    conversion, so the sum is one of [uint64] and wraps at [2^64]. *)
Definition generateNextProductID : Tx N :=
  counterBytes <- GetState counterKey or_return ErrReadCounter ;;
  counter <- match counterBytes with
             | None => ret 0
             | Some b => decoded (decodeCounter b) ErrDecodeCounter
             end ;;
  let id := add64 counter 1 in
  _ <- PutState counterKey (encodeCounter id) or_return ErrPutCounter ;;
  ret id.

(** The body of [AddProduct], answering the local [nextProductID], a
    [uint64], so that statements can name the identifier a call used.  The
    literal leaves [State] out, which gives it the zero value. *)
Definition AddProduct_id (name description : string) (manufacturedDate : N)
    (batchNumber : string) : Tx N :=
  nextProductID <- generateNextProductID ;;
  let product :=
    {| ID := nextProductID;
       Name := name;
       Description := description;
       ManufactureDate := manufacturedDate;
       BatchNumber := batchNumber;
       State := 0%Z |} in
  _ <- PutState (productKey nextProductID) (bytes_of_Product product)
         or_return ErrPutProduct ;;
  ret nextProductID.

(** [AddProduct] itself answers only the error. *)
Definition AddProduct (name description : string) (manufacturedDate : N)
    (batchNumber : string) : Tx unit :=
  _ <- AddProduct_id name description manufacturedDate batchNumber ;;
  ret tt.

Definition RetrieveProductDetails (productID : N) : Tx Product :=
  productBytes <- GetState (productKey productID) or_return ErrReadProduct ;;
  match productBytes with
  | None => fail (ErrProductNotExist productID)
  | Some productBytes =>
      product <- decoded (json_Unmarshal_Product productBytes)
                   ErrUnmarshalProduct ;;
      ret product
  end.

Definition UpdateProductState (productID : N) (currentState : ProductState)
    : Tx unit :=
  product <- RetrieveProductDetails productID ;;
  if (State product =? PRODUCT_REGISTERED)%Z
     && negb (currentState =? PRODUCT_TRANSIT)%Z
  then fail ErrInvalidTransition
  else
    let product := set_State product currentState in
    let productBytes := json_Marshal_Product product in
    _ <- PutState (productKey productID) productBytes
           or_return ErrPutUpdatedProduct ;;
    ret tt.

Definition LogProductMovement (productID : N) (newLocation : string)
    : Tx unit :=
  product <- RetrieveProductDetails productID ;;
  now <- dropErr GetTxTimestamp ;;
  let productHistory :=
    {| History.Timestamp := uint64 (GetSeconds now);
       History.Action := "Movement";
       History.Location := newLocation;
       History.State := State product |} in
  timestamp <- dropErr GetTxTimestamp ;;
  let productHistory :=
    History.set_Timestamp productHistory (uint64 (GetSeconds timestamp)) in
  let historyKey := historyKey productID in
  existingHistoryBytes <- GetState historyKey or_return ErrReadHistory ;;
  productHistories <-
    match existingHistoryBytes with
    | None => ret []
    | Some existingHistoryBytes =>
        productHistories <-
          decoded (json_Unmarshal_Histories existingHistoryBytes)
            ErrUnmarshalHistory ;;
        productHistories <-
          decoded (json_Unmarshal_Histories existingHistoryBytes)
            ErrUnmarshalHistory ;;
        ret productHistories
    end ;;
  let productHistories := (productHistories ++ [productHistory])%list in
  let updatedHistoryBytes := json_Marshal_Histories productHistories in
  _ <- PutState historyKey updatedHistoryBytes or_return ErrPutHistory ;;
  ret tt.

End Chaincode.

(** ** Vocabulary of the statements *)

Section Vocabulary.
Context `{codec : Codec} `{allocator : Allocator}.

(** The counter as the allocator reads it: zero when absent. *)
Definition counterValue (s : Stub) : option N :=
  match state s !! counterKey with
  | None => Some 0
  | Some b => decodeCounter b
  end.

(** The history of [productID] as [LogProductMovement] reads it: the empty
    sequence when the key is absent. *)
Definition storedHistory (productID : N) (s : Stub)
    : option (list ProductHistory) :=
  match state s !! historyKey productID with
  | None => Some []
  | Some b => json_Unmarshal_Histories b
  end.

(** The entry a movement to [location] records for [product] in a
    transaction whose timestamp is [now]. *)
Definition movementEntry (now : option Z) (location : string)
    (product : Product) : ProductHistory :=
  {| History.Timestamp := uint64 (GetSeconds now);
     History.Action := "Movement";
     History.Location := location;
     History.State := State product |}.

(** The transition policy in the words of the design: a record in
    [PRODUCT_REGISTERED] may only move to [PRODUCT_TRANSIT]; any other
    record may move anywhere. *)
Definition policyAccepts (current target : ProductState) : Prop :=
  current = PRODUCT_REGISTERED -> target = PRODUCT_TRANSIT.

(** What a reserved counter key and a stored form of the counter have to
    satisfy for the allocator to work: the stored form reads back, and the
    key is no record key. *)
Definition counterReadsBack : Prop :=
  forall n : N, decodeCounter (encodeCounter n) = Some n.

Definition counterKeyReserved : Prop :=
  forall productID : N, counterKey <> productKey productID.

(** The identifiers [c + 1, ..., c + n]. *)
Definition idsFrom (c : N) (n : nat) : list N :=
  map (fun k : nat => c + N.of_nat k) (seq 1 n).

(** The JSON form of a record, or of a history, reads back as itself. *)
Definition productReadsBack (product : Product) : Prop :=
  json_Unmarshal_Product (json_Marshal_Product product) = Some product.

Definition historyReadsBack (hs : list ProductHistory) : Prop :=
  json_Unmarshal_Histories (json_Marshal_Histories hs) = Some hs.

(** Arguments of one [AddProduct] call. *)
Record Registration : Type := mkRegistration {
  regName : string;
  regDescription : string;
  regManufactureDate : N;
  regBatchNumber : string;
}.

(** Sequential [AddProduct] calls, answering the identifiers they used. *)
Fixpoint AddProducts (calls : list Registration) : Tx (list N) :=
  match calls with
  | [] => ret []
  | r :: calls' =>
      id <- AddProduct_id (regName r) (regDescription r)
              (regManufactureDate r) (regBatchNumber r) ;;
      ids <- AddProducts calls' ;;
      ret (id :: ids)
  end.

(** The entries that sequential movements of [product] record, one per
    call, in call order. *)
Definition movementEntries (product : Product)
    (calls : list (option Z * string)) : list ProductHistory :=
  map (fun call => movementEntry (fst call) (snd call) product) calls.

(** Sequential [LogProductMovement] calls on one product, each in a
    transaction of its own with its own timestamp. *)
Fixpoint LogProductMovements (productID : N)
    (calls : list (option Z * string)) : Tx unit :=
  match calls with
  | [] => ret tt
  | (t, location) :: calls' =>
      fun s =>
        bind (LogProductMovement productID location)
             (fun _ => LogProductMovements productID calls')
             (withTx t s)
  end.

End Vocabulary.

(** ** Sequences of calls

    A trace of the two writing transactions, on any products, each call a
    transaction of its own; and what one product looks like from outside
    while the trace runs: its record and its history. *)

Section Traces.
Context `{codec : Codec}.

(** The test of [UpdateProductState]: the record is in
    [PRODUCT_REGISTERED] and the target is not [PRODUCT_TRANSIT]. *)
Definition rejects (current target : ProductState) : bool :=
  (current =? PRODUCT_REGISTERED)%Z && negb (target =? PRODUCT_TRANSIT)%Z.

Inductive Call : Type :=
| Transition (productID : N) (target : ProductState)
| Movement (productID : N) (now : option Z) (location : string).

Definition runCall (c : Call) : Tx unit :=
  match c with
  | Transition productID target => UpdateProductState productID target
  | Movement productID now location =>
      fun s => LogProductMovement productID location (withTx now s)
  end.

(** The calls one after the other, each on the store the one before left,
    whether it failed or not; the answers in call order. *)
Fixpoint runCalls (cs : list Call) (s : Stub)
    : list (Result error unit) * Stub :=
  match cs with
  | [] => ([], s)
  | c :: cs' =>
      let (r, s1) := runCall c s in
      let (rs, s2) := runCalls cs' s1 in
      (r :: rs, s2)
  end.

(** One product seen from outside: the record and the history. *)
Definition View : Type := (Product * list ProductHistory)%type.

(** What a call does to the view of [productID]: a transition of that
    product that the test lets through sets the state; a movement of that
    product adds one entry with the state of the moment; a rejected
    transition, and any call on another product, changes nothing. *)
Definition stepView (productID : N) (v : View) (c : Call) : View :=
  match c with
  | Transition productID' target =>
      if (productID' =? productID) && negb (rejects (State (fst v)) target)
      then (set_State (fst v) target, snd v)
      else v
  | Movement productID' now location =>
      if productID' =? productID
      then (fst v, (snd v ++ [movementEntry now location (fst v)])%list)
      else v
  end.

Definition runView (productID : N) (v : View) (cs : list Call) : View :=
  fold_left (stepView productID) cs v.

(** Every record and every history that the trace writes for [productID]
    reads back through the codec. *)
Fixpoint readsBackAlong (productID : N) (v : View) (cs : list Call) : Prop :=
  match cs with
  | [] => True
  | c :: cs' =>
      match c with
      | Transition productID' target =>
          (productID' =? productID) && negb (rejects (State (fst v)) target)
          = true ->
          productReadsBack (set_State (fst v) target)
      | Movement productID' now location =>
          (productID' =? productID) = true ->
          historyReadsBack (snd v ++ [movementEntry now location (fst v)])%list
      end
      /\ readsBackAlong productID (stepView productID v c) cs'
  end.

(** The answer the view foretells for a call on [productID]; for a call on
    another product it foretells nothing. *)
Definition answerView (productID : N) (v : View) (c : Call)
    : option (Result error unit) :=
  match c with
  | Transition productID' target =>
      if productID' =? productID
      then Some (if rejects (State (fst v)) target
                 then Err ErrInvalidTransition
                 else Ok tt)
      else None
  | Movement productID' _ _ =>
      if productID' =? productID then Some (Ok tt) else None
  end.

Fixpoint answersView (productID : N) (v : View) (cs : list Call)
    : list (option (Result error unit)) :=
  match cs with
  | [] => []
  | c :: cs' =>
      answerView productID v c
      :: answersView productID (stepView productID v c) cs'
  end.

Definition agrees (r : Result error unit) (o : option (Result error unit))
    : Prop :=
  match o with
  | Some r' => r = r'
  | None => True
  end.


End Traces.

(** ** A reference codec and allocator

    A concrete instance, to run the model.  The encoder writes what
    encoding/json writes for the two shapes when the strings are plain
    printable text; the decoder reads that form back and rejects anything
    else.  The counter is stored as decimal text under a key of its own. *)

Module Ref.

Definition dquote : string := String "034"%char EmptyString.

Definition quoted (s : string) : string := dquote ++ s ++ dquote.

(** Escaping of a string body: quote and backslash get a backslash. *)
Fixpoint escape (s : string) : string :=
  match s with
  | EmptyString => EmptyString
  | String c s' =>
      if (Ascii.eqb c "034" || Ascii.eqb c "\")%char
      then String "\"%char (String c (escape s'))
      else String c (escape s')
  end.

Definition jsonString (s : string) : string := quoted (escape s).

Definition jsonInt (z : Z) : string :=
  if (z <? 0)%Z then "-" ++ decimal (Z.to_N (- z)) else decimal (Z.to_N z).

Definition field (name value : string) : string :=
  quoted name ++ ":" ++ value.

Definition jsonProduct (p : Product) : string :=
  "{" ++ field "id" (decimal (ID p))
  ++ "," ++ field "name" (jsonString (Name p))
  ++ "," ++ field "description" (jsonString (Description p))
  ++ "," ++ field "manufactureDate" (decimal (ManufactureDate p))
  ++ "," ++ field "batchNumber" (jsonString (BatchNumber p))
  ++ "," ++ field "state" (jsonInt (State p)) ++ "}".

Definition jsonHistory (h : ProductHistory) : string :=
  "{" ++ field "timestamp" (decimal (History.Timestamp h))
  ++ "," ++ field "action" (jsonString (History.Action h))
  ++ "," ++ field "location" (jsonString (History.Location h))
  ++ "," ++ field "state" (jsonInt (History.State h)) ++ "}".

Fixpoint jsonElements (hs : list ProductHistory) : string :=
  match hs with
  | [] => ""
  | [h] => jsonHistory h
  | h :: hs' => jsonHistory h ++ "," ++ jsonElements hs'
  end.

(** A nil slice is written [null]. *)
Definition jsonHistories (hs : list ProductHistory) : string :=
  match hs with
  | [] => "null"
  | _ => "[" ++ jsonElements hs ++ "]"
  end.

(** *** Reading *)

Definition Parser (A : Type) : Type := string -> option (A * string).

Fixpoint literal (lit : string) : Parser unit :=
  fun s =>
    match lit with
    | EmptyString => Some (tt, s)
    | String c lit' =>
        match s with
        | String d s' => if Ascii.eqb c d then literal lit' s' else None
        | EmptyString => None
        end
    end.

Definition digitOf (c : ascii) : option N :=
  let n := N_of_ascii c in
  if (48 <=? n) && (n <=? 57) then Some (n - 48) else None.

Fixpoint digits (acc : N) (s : string) : N * string :=
  match s with
  | String c s' =>
      match digitOf c with
      | Some d => digits (acc * 10 + d) s'
      | None => (acc, s)
      end
  | EmptyString => (acc, s)
  end.

(** A JSON number without sign, fraction or exponent; no leading zero. *)
Definition natural : Parser N :=
  fun s =>
    match s with
    | String c s' =>
        match digitOf c with
        | Some 0 =>
            match s' with
            | String c' _ =>
                match digitOf c' with
                | Some _ => None
                | None => Some (0, s')
                end
            | EmptyString => Some (0, s')
            end
        | Some d => Some (digits d s')
        | None => None
        end
    | EmptyString => None
    end.

(** A number for a [uint64] field. *)
Definition unsigned64 : Parser N :=
  fun s =>
    match natural s with
    | Some (n, rest) => if n <? 2 ^ 64 then Some (n, rest) else None
    | None => None
    end.

(** A number for an [int] field. *)
Definition signed64 : Parser Z :=
  fun s =>
    match s with
    | String "-"%char s' =>
        match natural s' with
        | Some (n, rest) =>
            if n <=? 2 ^ 63 then Some ((- Z.of_N n)%Z, rest) else None
        | None => None
        end
    | _ =>
        match natural s with
        | Some (n, rest) =>
            if n <? 2 ^ 63 then Some (Z.of_N n, rest) else None
        | None => None
        end
    end.

(** The body of a string up to its closing quote. *)
Fixpoint stringBody (s : string) : option (string * string) :=
  match s with
  | EmptyString => None
  | String c s' =>
      if Ascii.eqb c "034"%char then Some (EmptyString, s')
      else if Ascii.eqb c "\"%char then
        match s' with
        | String e s'' =>
            if (Ascii.eqb e "034" || Ascii.eqb e "\")%char then
              match stringBody s'' with
              | Some (body, rest) => Some (String e body, rest)
              | None => None
              end
            else None
        | EmptyString => None
        end
      else
        match stringBody s' with
        | Some (body, rest) => Some (String c body, rest)
        | None => None
        end
  end.

Definition text : Parser string :=
  fun s =>
    match literal dquote s with
    | Some (_, s') => stringBody s'
    | None => None
    end.

Definition andThen {A B : Type} (p : Parser A) (k : A -> Parser B)
    : Parser B :=
  fun s =>
    match p s with
    | Some (a, rest) => k a rest
    | None => None
    end.

Definition yield {A : Type} (a : A) : Parser A := fun s => Some (a, s).

Definition member {A : Type} (name : string) (value : Parser A) : Parser A :=
  andThen (literal (quoted name ++ ":")) (fun _ => value).

Definition comma : Parser unit := literal ",".

Definition product : Parser Product :=
  andThen (literal "{") (fun _ =>
  andThen (member "id" unsigned64) (fun id =>
  andThen comma (fun _ =>
  andThen (member "name" text) (fun name =>
  andThen comma (fun _ =>
  andThen (member "description" text) (fun description =>
  andThen comma (fun _ =>
  andThen (member "manufactureDate" unsigned64) (fun manufactureDate =>
  andThen comma (fun _ =>
  andThen (member "batchNumber" text) (fun batchNumber =>
  andThen comma (fun _ =>
  andThen (member "state" signed64) (fun st =>
  andThen (literal "}") (fun _ =>
  yield (mkProduct id name description manufactureDate batchNumber st)
  ))))))))))))).

Definition history : Parser ProductHistory :=
  andThen (literal "{") (fun _ =>
  andThen (member "timestamp" unsigned64) (fun timestamp =>
  andThen comma (fun _ =>
  andThen (member "action" text) (fun action =>
  andThen comma (fun _ =>
  andThen (member "location" text) (fun location =>
  andThen comma (fun _ =>
  andThen (member "state" signed64) (fun st =>
  andThen (literal "}") (fun _ =>
  yield (History.mkProductHistory timestamp action location st)
  ))))))))).

(** The elements after the first, up to the closing bracket. *)
Fixpoint moreElements (fuel : nat) : Parser (list ProductHistory) :=
  fun s =>
    match fuel with
    | O => None
    | S fuel' =>
        match s with
        | String "]"%char rest => Some ([], rest)
        | String ","%char rest =>
            andThen history (fun h =>
            andThen (moreElements fuel') (fun hs => yield (h :: hs))) rest
        | _ => None
        end
    end.

Definition histories : Parser (list ProductHistory) :=
  fun s =>
    match s with
    | String "n"%char _ => andThen (literal "null") (fun _ => yield []) s
    | String "["%char (String "]"%char rest) => Some ([], rest)
    | String "["%char rest =>
        andThen history (fun h =>
        andThen (moreElements (String.length rest)) (fun hs =>
        yield (h :: hs))) rest
    | _ => None
    end.

(** A whole input: nothing may follow the value. *)
Definition whole {A : Type} (p : Parser A) (b : bytes) : option A :=
  match p (string_of_list_byte b) with
  | Some (a, EmptyString) => Some a
  | _ => None
  end.

(** The fields of a record one after the other, with no framing: Go has no
    conversion from a struct to [[]byte], and this stands for it here. *)
Definition fieldBytes (p : Product) : string :=
  decimal (ID p) ++ Name p ++ Description p
  ++ decimal (ManufactureDate p) ++ BatchNumber p ++ jsonInt (State p).

#[export] Instance codec : Codec := {|
  json_Marshal_Product p := list_byte_of_string (jsonProduct p);
  json_Unmarshal_Product := whole product;
  json_Marshal_Histories hs := list_byte_of_string (jsonHistories hs);
  json_Unmarshal_Histories := whole histories;
  bytes_of_Product p := list_byte_of_string (fieldBytes p);
|}.

Definition parseCounter (b : bytes) : option N :=
  match NilEmpty.uint_of_string (string_of_list_byte b) with
  | Some d => Some (N.of_uint d)
  | None => None
  end.

#[export] Instance allocator : Allocator := {|
  counterKey := "NEXT-PRODUCT-ID";
  encodeCounter n := list_byte_of_string (decimal n);
  decodeCounter := parseCounter;
|}.

(** An empty ledger, in a transaction stamped [t]. *)
Definition emptyStub (t : Z) : Stub := {| state := ∅; txSeconds := Some t |}.

(** A ledger holding one record in JSON, in a transaction stamped [t]. *)
Definition stubWith (p : Product) (t : Z) : Stub :=
  {| state := {[ productKey (ID p) := json_Marshal_Product p ]};
     txSeconds := Some t |}.

Definition widget : Product :=
  {| ID := 1;
     Name := "Widget";
     Description := "A 2" ++ dquote ++ " widget";
     ManufactureDate := 1700000000;
     BatchNumber := "B\1";
     State := PRODUCT_REGISTERED |}.

(** A ledger that holds nothing but the counter, at [c]. *)
Definition counterStub (c : N) : Stub :=
  {| state := {[ counterKey := encodeCounter c ]}; txSeconds := Some 0%Z |}.

(** A ledger whose product 1 holds bytes that are no record. *)
Definition brokenStub (t : Z) : Stub :=
  {| state := {[ productKey 1 := list_byte_of_string "{" ]};
     txSeconds := Some t |}.

(** A trace on two products, of which only product 1 has a record: a
    movement, a rejected transition, a transition and a movement of the
    product without record, and an accepted transition between two
    movements. *)
Definition trace : list Call :=
  [Movement 1 (Some 10%Z) "Warehouse A";
   Transition 1 PRODUCT_SOLD;
   Transition 2 PRODUCT_TRANSIT;
   Transition 1 PRODUCT_TRANSIT;
   Movement 2 (Some 15%Z) "Warehouse B";
   Movement 1 (Some 20%Z) "Dock 4"].

End Ref.

(** ** The reference instance at work *)

Section RefExamples.
Import Ref.

Example productKey_7 : productKey 7 = "PRODUCT-7".
Proof. reflexivity. Qed.

Example historyKey_42 : historyKey 42 = "PRODUCT-42-HISTORY".
Proof. reflexivity. Qed.

Example uint64_positive : uint64 1700000000 = 1700000000.
Proof. reflexivity. Qed.

Example uint64_negative_wraps : uint64 (-1) = 18446744073709551615.
Proof. reflexivity. Qed.

Example Ref_history_roundtrip :
  json_Unmarshal_Histories
    (json_Marshal_Histories
       [movementEntry (Some 10%Z) "Warehouse A" widget;
        movementEntry None "Dock \\ 4" (set_State widget PRODUCT_TRANSIT)])
  = Some [movementEntry (Some 10%Z) "Warehouse A" widget;
          movementEntry None "Dock \\ 4" (set_State widget PRODUCT_TRANSIT)].
Proof. vm_compute. reflexivity. Qed.

Example Ref_rejects_trailing_bytes :
  json_Unmarshal_Product
    (json_Marshal_Product widget ++ list_byte_of_string "x")%list = None.
Proof. vm_compute. reflexivity. Qed.

Example Ref_widget_roundtrip :
json_Unmarshal_Product (json_Marshal_Product Ref.widget) = Some Ref.widget.
Proof. vm_compute. reflexivity. Qed.

Example Ref_widget_json :
Ref.jsonProduct (set_State Ref.widget PRODUCT_SOLD)
= "{" ++ Ref.quoted "id" ++ ":1," ++ Ref.quoted "name" ++ ":"
  ++ Ref.quoted "Widget" ++ "," ++ Ref.quoted "description" ++ ":"
  ++ Ref.quoted ("A 2\" ++ Ref.dquote ++ " widget") ++ ","
  ++ Ref.quoted "manufactureDate" ++ ":1700000000,"
  ++ Ref.quoted "batchNumber" ++ ":" ++ Ref.quoted "B\\1" ++ ","
  ++ Ref.quoted "state" ++ ":4}".
Proof. vm_compute. reflexivity. Qed.

End RefExamples.

(** ** Keys *)

Lemma append_nonempty_ne (s t : string) : t <> "" -> s <> s ++ t.
Proof.
  intros Ht. induction s as [| c s IH]; simpl; intros H.
  - apply Ht. now symmetry.
  - injection H as H. contradiction.
Qed.

Lemma decimal_inj (n m : N) : decimal n = decimal m -> n = m.
Proof.
  unfold decimal. intros H.
  assert (Hu : Some (N.to_uint n) = Some (N.to_uint m)).
  { rewrite <- !NilEmpty.usu. now rewrite H. }
  injection Hu as Hu.
  rewrite <- (Unsigned.of_to n), <- (Unsigned.of_to m). now rewrite Hu.
Qed.

Lemma productKey_inj (i j : N) : productKey i = productKey j -> i = j.
Proof.
  unfold productKey. intros H.
  apply decimal_inj. now apply (String.app_inj "PRODUCT-") in H.
Qed.

(** The record and the history of one product live under different keys. *)
Lemma productKey_ne_historyKey (productID : N) :
  productKey productID <> historyKey productID.
Proof.
  unfold productKey, historyKey. intros H.
  apply (String.app_inj "PRODUCT-") in H.
  revert H. now apply append_nonempty_ne.
Qed.

(** ** The transactions as equations *)

Section Equations.
Context `{codec : Codec} `{allocator : Allocator}.

Lemma RetrieveProductDetails_eq (productID : N) (s : Stub) :
  RetrieveProductDetails productID s =
  (match state s !! productKey productID with
   | None => Err (ErrProductNotExist productID)
   | Some b =>
       match json_Unmarshal_Product b with
       | Some product => Ok product
       | None => Err ErrUnmarshalProduct
       end
   end, s).
Proof.
  unfold RetrieveProductDetails, bind, host, GetState. simpl.
  destruct (state s !! productKey productID) as [b |]; [| reflexivity].
  unfold bind, decoded. now destruct (json_Unmarshal_Product b).
Qed.

(** Reading never writes. *)
Lemma RetrieveProductDetails_stub (productID : N) (s : Stub) :
  snd (RetrieveProductDetails productID s) = s.
Proof. now rewrite RetrieveProductDetails_eq. Qed.

Lemma RetrieveProductDetails_pair (productID : N) (s : Stub) :
  RetrieveProductDetails productID s
  = (fst (RetrieveProductDetails productID s), s).
Proof. now rewrite RetrieveProductDetails_eq. Qed.

Lemma UpdateProductState_err (productID : N) (target : ProductState)
    (s : Stub) (e : error) :
  fst (RetrieveProductDetails productID s) = Err e ->
  UpdateProductState productID target s = (Err e, s).
Proof.
  intros H. unfold UpdateProductState, bind.
  rewrite RetrieveProductDetails_pair, H. reflexivity.
Qed.

Lemma UpdateProductState_ok (productID : N) (target : ProductState)
    (s : Stub) (product : Product) :
  fst (RetrieveProductDetails productID s) = Ok product ->
  UpdateProductState productID target s =
  if (State product =? PRODUCT_REGISTERED)%Z
     && negb (target =? PRODUCT_TRANSIT)%Z
  then (Err ErrInvalidTransition, s)
  else (Ok tt,
        withState (<[productKey productID :=
                       json_Marshal_Product (set_State product target)]>
                     (state s)) s).
Proof.
  intros H. unfold UpdateProductState, bind at 1.
  rewrite RetrieveProductDetails_pair, H.
  destruct ((State product =? PRODUCT_REGISTERED)%Z
            && negb (target =? PRODUCT_TRANSIT)%Z); reflexivity.
Qed.

Lemma LogProductMovement_err (productID : N) (location : string)
    (s : Stub) (e : error) :
  fst (RetrieveProductDetails productID s) = Err e ->
  LogProductMovement productID location s = (Err e, s).
Proof.
  intros H. unfold LogProductMovement, bind.
  rewrite RetrieveProductDetails_pair, H. reflexivity.
Qed.

Lemma dropErr_GetTxTimestamp (s : Stub) :
  dropErr GetTxTimestamp s = (Ok (txSeconds s), s).
Proof.
  unfold dropErr, GetTxTimestamp. now destruct (txSeconds s).
Qed.

Lemma LogProductMovement_ok (productID : N) (location : string)
    (s : Stub) (product : Product) :
  fst (RetrieveProductDetails productID s) = Ok product ->
  LogProductMovement productID location s =
  match storedHistory productID s with
  | None => (Err ErrUnmarshalHistory, s)
  | Some old =>
      (Ok tt,
       withState (<[historyKey productID :=
                      json_Marshal_Histories
                        (old ++ [movementEntry (txSeconds s) location
                                   product])%list]>
                    (state s)) s)
  end.
Proof.
  intros H. unfold LogProductMovement, bind at 1.
  rewrite RetrieveProductDetails_pair, H.
  unfold bind at 1. rewrite dropErr_GetTxTimestamp.
  unfold bind at 1. rewrite dropErr_GetTxTimestamp.
  unfold storedHistory, movementEntry, History.set_Timestamp.
  unfold bind, host, GetState, PutState. simpl.
  destruct (state s !! historyKey productID) as [b |]; simpl;
    [ destruct (json_Unmarshal_Histories b) as [old |]; reflexivity
    | reflexivity ].
Qed.

(** On this ledger, whose [PutState] answers, a call of these two
    transactions that fails has failed before its one write, and leaves the
    store as it found it.  (The source has one more error return, after a
    [PutState] that failed.) *)
Lemma UpdateProductState_failure_no_write (productID : N)
    (target : ProductState) (s : Stub) (e : error) :
  fst (UpdateProductState productID target s) = Err e ->
  snd (UpdateProductState productID target s) = s.
Proof.
  destruct (fst (RetrieveProductDetails productID s))
    as [product | e'] eqn:Hget.
  - rewrite (UpdateProductState_ok _ _ _ _ Hget).
    now destruct (_ && _).
  - now rewrite (UpdateProductState_err _ _ _ _ Hget).
Qed.

Lemma LogProductMovement_failure_no_write (productID : N)
    (location : string) (s : Stub) (e : error) :
  fst (LogProductMovement productID location s) = Err e ->
  snd (LogProductMovement productID location s) = s.
Proof.
  destruct (fst (RetrieveProductDetails productID s))
    as [product | e'] eqn:Hget.
  - rewrite (LogProductMovement_ok _ _ _ _ Hget).
    now destruct (storedHistory productID s).
  - now rewrite (LogProductMovement_err _ _ _ _ Hget).
Qed.

End Equations.

(** ** Reading a record *)

Section Ledger.
Context `{codec : Codec}.

(** C9.  [RetrieveProductDetails] (getRecord) fails with NotFoundError when
    no value is stored under the record's key, fails with DecodeError when
    the stored bytes do not parse as a record, and answers the parsed record
    otherwise; in every case the store it leaves is the store it found. *)
Theorem RetrieveProductDetails_outcomes (productID : N) (s : Stub) :
  snd (RetrieveProductDetails productID s) = s
  /\ (state s !! productKey productID = None ->
      failsWith (fst (RetrieveProductDetails productID s)) NotFoundError)
  /\ (forall b : bytes,
        state s !! productKey productID = Some b ->
        json_Unmarshal_Product b = None ->
        failsWith (fst (RetrieveProductDetails productID s)) DecodeError)
  /\ (forall (b : bytes) (product : Product),
        state s !! productKey productID = Some b ->
        json_Unmarshal_Product b = Some product ->
        fst (RetrieveProductDetails productID s) = Ok product).
Proof.
  rewrite RetrieveProductDetails_eq. simpl.
  split; [reflexivity |].
  split; [| split].
  - intros ->. reflexivity.
  - intros b -> ->. reflexivity.
  - intros b product -> ->. reflexivity.
Qed.

(** ** The transition policy *)

Lemma rejected_true (current target : ProductState) :
  current = PRODUCT_REGISTERED -> target <> PRODUCT_TRANSIT ->
  (current =? PRODUCT_REGISTERED)%Z && negb (target =? PRODUCT_TRANSIT)%Z
  = true.
Proof.
  intros -> Hne. apply andb_true_iff. split.
  - apply Z.eqb_refl.
  - apply negb_true_iff. now apply Z.eqb_neq.
Qed.

Lemma rejected_false (current target : ProductState) :
  policyAccepts current target ->
  (current =? PRODUCT_REGISTERED)%Z && negb (target =? PRODUCT_TRANSIT)%Z
  = false.
Proof.
  unfold policyAccepts. intros Hacc.
  destruct (Z.eqb_spec current PRODUCT_REGISTERED) as [Hc | Hc]; simpl.
  - rewrite (Hacc Hc). now rewrite Z.eqb_refl.
  - reflexivity.
Qed.

(** C3.  For a stored record, [UpdateProductState] (transition) applies this
    policy and no other: from [PRODUCT_REGISTERED] the call succeeds for the
    target [PRODUCT_TRANSIT] and fails with InvalidTransitionError for every
    other target; from any other state it succeeds for every target. *)
Theorem UpdateProductState_policy (productID : N) (target : ProductState)
    (s : Stub) (product : Product) :
  fst (RetrieveProductDetails productID s) = Ok product ->
  (State product = PRODUCT_REGISTERED -> target = PRODUCT_TRANSIT ->
   fst (UpdateProductState productID target s) = Ok tt)
  /\ (State product = PRODUCT_REGISTERED -> target <> PRODUCT_TRANSIT ->
      failsWith (fst (UpdateProductState productID target s))
        InvalidTransitionError)
  /\ (State product <> PRODUCT_REGISTERED ->
      fst (UpdateProductState productID target s) = Ok tt).
Proof.
  intros Hget. rewrite (UpdateProductState_ok _ _ _ _ Hget).
  split; [| split].
  - intros Hreg Htarget. rewrite rejected_false; [reflexivity |].
    now intros _.
  - intros Hreg Htarget. now rewrite rejected_true.
  - intros Hother. rewrite rejected_false; [reflexivity |].
    intros Hreg. contradiction.
Qed.

(** C7.  On a record in [PRODUCT_REGISTERED], a transition to any target
    other than [PRODUCT_TRANSIT] fails with InvalidTransitionError, and the
    rejected call writes nothing: the store, and with it the bytes under the
    record's key, are as before. *)
Theorem UpdateProductState_rejected_no_write (productID : N)
    (target : ProductState) (s : Stub) (product : Product) :
  fst (RetrieveProductDetails productID s) = Ok product ->
  State product = PRODUCT_REGISTERED ->
  target <> PRODUCT_TRANSIT ->
  failsWith (fst (UpdateProductState productID target s))
    InvalidTransitionError
  /\ snd (UpdateProductState productID target s) = s
  /\ state (snd (UpdateProductState productID target s))
       !! productKey productID
     = state s !! productKey productID.
Proof.
  intros Hget Hreg Htarget.
  rewrite (UpdateProductState_ok _ _ _ _ Hget).
  rewrite (rejected_true _ _ Hreg Htarget). simpl.
  repeat split.
Qed.

(** ** Movements *)

(** C8.  For an id with no stored record, [LogProductMovement]
    (appendMovement) fails with NotFoundError and writes nothing; the
    history key of that id is neither created nor changed. *)
Theorem LogProductMovement_no_record (productID : N) (location : string)
    (s : Stub) :
  state s !! productKey productID = None ->
  failsWith (fst (LogProductMovement productID location s)) NotFoundError
  /\ snd (LogProductMovement productID location s) = s
  /\ state (snd (LogProductMovement productID location s))
       !! historyKey productID
     = state s !! historyKey productID.
Proof.
  intros Habsent.
  rewrite (LogProductMovement_err _ _ _ (ErrProductNotExist productID)).
  - repeat split.
  - rewrite RetrieveProductDetails_eq, Habsent. reflexivity.
Qed.

(** C10.  [LogProductMovement] never changes the record: whether it succeeds
    or fails, the value under the record's key after the call is the value
    that was there before. *)
Theorem LogProductMovement_keeps_record (productID : N) (location : string)
    (s : Stub) :
  state (snd (LogProductMovement productID location s))
    !! productKey productID
  = state s !! productKey productID.
Proof.
  destruct (fst (RetrieveProductDetails productID s)) as [product | e] eqn:Hget.
  - rewrite (LogProductMovement_ok _ _ _ _ Hget).
    destruct (storedHistory productID s) as [old |]; simpl.
    + apply lookup_insert_ne. intros Heq.
      now apply (productKey_ne_historyKey productID).
    + reflexivity.
  - now rewrite (LogProductMovement_err _ _ _ _ Hget).
Qed.

(** C6.  In [LogProductMovement], an absent history key counts as the empty
    sequence and the call goes on to store the one new entry; history bytes
    that are present and do not parse make the call fail with DecodeError,
    and the store, the unreadable history included, stays as it was. *)
Theorem LogProductMovement_history_read (productID : N) (location : string)
    (s : Stub) (product : Product) :
  fst (RetrieveProductDetails productID s) = Ok product ->
  (state s !! historyKey productID = None ->
   LogProductMovement productID location s
   = (Ok tt,
      withState (<[historyKey productID :=
                     json_Marshal_Histories
                       [movementEntry (txSeconds s) location product]]>
                   (state s)) s))
  /\ (forall b : bytes,
        state s !! historyKey productID = Some b ->
        json_Unmarshal_Histories b = None ->
        failsWith (fst (LogProductMovement productID location s)) DecodeError
        /\ snd (LogProductMovement productID location s) = s
        /\ state (snd (LogProductMovement productID location s))
             !! historyKey productID = Some b).
Proof.
  intros Hget. rewrite (LogProductMovement_ok _ _ _ _ Hget).
  unfold storedHistory. split.
  - intros ->. reflexivity.
  - intros b Hb Hdec. rewrite Hb, Hdec. simpl. repeat split. exact Hb.
Qed.

End Ledger.

(** ** What a successful call writes *)

Section Writes.
Context `{codec : Codec}.

Lemma accepted_of_false (current target : ProductState) :
  (current =? PRODUCT_REGISTERED)%Z && negb (target =? PRODUCT_TRANSIT)%Z
  = false ->
  policyAccepts current target.
Proof.
  intros Hb Hreg.
  destruct (Z.eq_dec target PRODUCT_TRANSIT) as [| Hne]; [assumption |].
  now rewrite (rejected_true _ _ Hreg Hne) in Hb.
Qed.

(** The stub plays no part in reading beyond its state. *)
Lemma RetrieveProductDetails_state (productID : N) (s1 s2 : Stub) :
  state s1 = state s2 ->
  fst (RetrieveProductDetails productID s1)
  = fst (RetrieveProductDetails productID s2).
Proof. intros H. rewrite !RetrieveProductDetails_eq. simpl. now rewrite H. Qed.

Lemma RetrieveProductDetails_other_key (productID : N) (key : string)
    (value : bytes) (s : Stub) :
  key <> productKey productID ->
  fst (RetrieveProductDetails productID
         (withState (<[key := value]> (state s)) s))
  = fst (RetrieveProductDetails productID s).
Proof.
  intros Hne. rewrite !RetrieveProductDetails_eq. simpl.
  now rewrite lookup_insert_ne.
Qed.

(** C4.  [UpdateProductState] succeeds on every stored record that the policy
    lets move to the target; and a successful call found such a record and
    rewrote the value under that record's key, and nothing else: the new
    value is the JSON form of the record with its state set to the target
    and its id, name, description, manufacture date and batch number as they
    were; every other key, the history key of the id among them, keeps its
    value.  When that JSON form reads back, reading the record afterwards
    gives the updated record. *)
Theorem UpdateProductState_writes (productID : N) (target : ProductState)
    (s : Stub) :
  (forall product : Product,
     fst (RetrieveProductDetails productID s) = Ok product ->
     policyAccepts (State product) target ->
     fst (UpdateProductState productID target s) = Ok tt)
  /\ (fst (UpdateProductState productID target s) = Ok tt ->
      exists product : Product,
        let updated := set_State product target in
        let s' := snd (UpdateProductState productID target s) in
        fst (RetrieveProductDetails productID s) = Ok product
        /\ policyAccepts (State product) target
        /\ state s'
           = <[productKey productID := json_Marshal_Product updated]>
               (state s)
        /\ (State updated = target
            /\ ID updated = ID product
            /\ Name updated = Name product
            /\ Description updated = Description product
            /\ ManufactureDate updated = ManufactureDate product
            /\ BatchNumber updated = BatchNumber product)
        /\ (forall key : string,
              key <> productKey productID ->
              state s' !! key = state s !! key)
        /\ state s' !! historyKey productID
           = state s !! historyKey productID
        /\ (productReadsBack updated ->
            fst (RetrieveProductDetails productID s') = Ok updated)).
Proof.
  split.
  { intros product Hget Hacc.
    rewrite (UpdateProductState_ok _ _ _ _ Hget).
    now rewrite (rejected_false _ _ Hacc). }
  intros Hok.
  destruct (fst (RetrieveProductDetails productID s))
    as [product | e] eqn:Hget.
  2: { rewrite (UpdateProductState_err _ _ _ _ Hget) in Hok. discriminate. }
  exists product. cbv zeta.
  rewrite (UpdateProductState_ok _ _ _ _ Hget) in Hok |- *.
  destruct ((State product =? PRODUCT_REGISTERED)%Z
            && negb (target =? PRODUCT_TRANSIT)%Z) eqn:Hrej;
    [discriminate |].
  simpl. split; [reflexivity |].
  split; [now apply accepted_of_false |].
  split; [reflexivity |].
  split; [repeat split |].
  split; [intros key Hne; now apply lookup_insert_ne |].
  split.
  - apply lookup_insert_ne. apply productKey_ne_historyKey.
  - intros Hback. rewrite RetrieveProductDetails_eq. simpl.
    rewrite lookup_insert_eq. now rewrite Hback.
Qed.

Lemma storedHistory_state (productID : N) (s1 s2 : Stub) :
  state s1 = state s2 ->
  storedHistory productID s1 = storedHistory productID s2.
Proof. unfold storedHistory. now intros ->. Qed.

(** One movement on a stub whose record and history are readable. *)
Lemma LogProductMovement_step (productID : N) (location : string)
    (s : Stub) (product : Product) (old : list ProductHistory) :
  fst (RetrieveProductDetails productID s) = Ok product ->
  storedHistory productID s = Some old ->
  let entry := movementEntry (txSeconds s) location product in
  let s' := snd (LogProductMovement productID location s) in
  fst (LogProductMovement productID location s) = Ok tt
  /\ state s'
     = <[historyKey productID := json_Marshal_Histories (old ++ [entry])%list]>
         (state s)
  /\ fst (RetrieveProductDetails productID s') = Ok product
  /\ (historyReadsBack (old ++ [entry])%list ->
      storedHistory productID s' = Some (old ++ [entry])%list).
Proof.
  intros Hget Hold. cbv zeta.
  rewrite (LogProductMovement_ok _ _ _ _ Hget), Hold. simpl.
  split; [reflexivity |]. split; [reflexivity |]. split.
  - rewrite RetrieveProductDetails_other_key; [assumption |].
    intros Heq. now apply (productKey_ne_historyKey productID).
  - intros Hback. unfold storedHistory. simpl.
    rewrite lookup_insert_eq. exact Hback.
Qed.

(** Sequential movements: every call succeeds and the stored history grows
    by the calls' entries in call order, as long as each history written on
    the way reads back. *)
Lemma LogProductMovements_append (productID : N) (product : Product)
    (calls : list (option Z * string)) :
  forall (s : Stub) (old : list ProductHistory),
    fst (RetrieveProductDetails productID s) = Ok product ->
    storedHistory productID s = Some old ->
    (forall pre : list ProductHistory,
       pre <> [] -> pre `prefix_of` movementEntries product calls ->
       historyReadsBack (old ++ pre)%list) ->
    fst (LogProductMovements productID calls s) = Ok tt
    /\ storedHistory productID (snd (LogProductMovements productID calls s))
       = Some (old ++ movementEntries product calls)%list.
Proof.
  induction calls as [| [t location] calls IH]; intros s old Hget Hold Hback.
  - simpl. rewrite app_nil_r. now split.
  - simpl. unfold bind.
    assert (Hget1 : fst (RetrieveProductDetails productID (withTx t s))
                    = Ok product).
    { now rewrite (RetrieveProductDetails_state _ _ s). }
    assert (Hold1 : storedHistory productID (withTx t s) = Some old).
    { now rewrite (storedHistory_state _ _ s). }
    destruct (LogProductMovement_step productID location _ _ _ Hget1 Hold1)
      as (Hfst & _ & Hget2 & Hnext).
    destruct (LogProductMovement productID location (withTx t s))
      as [r s2] eqn:Hrun.
    simpl in Hfst, Hget2, Hnext. subst r.
    set (entry := movementEntry t location product) in *.
    assert (Hold2 : storedHistory productID s2 = Some (old ++ [entry])%list).
    { apply Hnext. apply Hback; [discriminate |].
      apply prefix_cons, prefix_nil. }
    destruct (IH s2 (old ++ [entry])%list Hget2 Hold2) as [Hok Hhist].
    + intros pre Hne Hpre. rewrite <- app_assoc. simpl.
      apply Hback; [discriminate |]. now apply prefix_cons.
    + split; [exact Hok |]. rewrite Hhist. now rewrite <- app_assoc.
Qed.

(** The entry of a movement, field by field. *)
Lemma movementEntry_fields (now : option Z) (location : string)
    (product : Product) :
  movementEntry now location product
  = History.mkProductHistory
      match now with
      | Some t => Z.to_N (t mod 2 ^ 64)
      | None => 0
      end
      "Movement" location (State product).
Proof. now destruct now. Qed.

(** C5 (as amended).  [LogProductMovement] succeeds whenever the record and
    the history are readable, and a successful call found a readable record
    and a readable history (the empty one when the key is absent) and
    stored, under the history key, the old sequence followed by exactly one
    new entry: the action is "Movement", the location is the given one, the
    state is the record's state as fetched, and the timestamp is the seconds
    that [GetTxTimestamp] answers, converted to [uint64], or 0 when
    [GetTxTimestamp] fails.  Hence three movements in a row on a product
    with no history leave a history of three entries in call order. *)
Theorem LogProductMovement_appends (productID : N) :
  (forall (location : string) (s : Stub) (product : Product)
          (old : list ProductHistory),
     fst (RetrieveProductDetails productID s) = Ok product ->
     storedHistory productID s = Some old ->
     fst (LogProductMovement productID location s) = Ok tt)
  /\ (forall (location : string) (s : Stub),
        fst (LogProductMovement productID location s) = Ok tt ->
        exists (product : Product) (old : list ProductHistory) (stamp : N),
          let entry :=
            History.mkProductHistory stamp "Movement" location
              (State product) in
          let s' := snd (LogProductMovement productID location s) in
          fst (RetrieveProductDetails productID s) = Ok product
          /\ storedHistory productID s = Some old
          /\ (forall t : Z,
                fst (GetTxTimestamp s) = Ok t ->
                stamp = Z.to_N (t mod 2 ^ 64)
                /\ ((0 <= t < 2 ^ 63)%Z -> stamp = Z.to_N t))
          /\ (forall e : hostError,
                fst (GetTxTimestamp s) = Err e -> stamp = 0)
          /\ state s'
             = <[historyKey productID :=
                   json_Marshal_Histories (old ++ [entry])%list]> (state s)
          /\ (historyReadsBack (old ++ [entry])%list ->
              storedHistory productID s' = Some (old ++ [entry])%list))
  /\ (forall (s : Stub) (product : Product) (t1 t2 t3 : option Z)
        (l1 l2 l3 : string),
        let stamp := fun now : option Z =>
          match now with
          | Some t => Z.to_N (t mod 2 ^ 64)
          | None => 0
          end in
        let entry := fun (now : option Z) (location : string) =>
          History.mkProductHistory (stamp now) "Movement" location
            (State product) in
        let e1 := entry t1 l1 in
        let e2 := entry t2 l2 in
        let e3 := entry t3 l3 in
        let run :=
          LogProductMovements productID [(t1, l1); (t2, l2); (t3, l3)] s in
        fst (RetrieveProductDetails productID s) = Ok product ->
        state s !! historyKey productID = None ->
        historyReadsBack [e1] ->
        historyReadsBack [e1; e2] ->
        historyReadsBack [e1; e2; e3] ->
        fst run = Ok tt
        /\ storedHistory productID (snd run) = Some [e1; e2; e3]
        /\ length [e1; e2; e3] = 3%nat).
Proof.
  split; [| split].
  - intros location s product old Hget Hold.
    now destruct (LogProductMovement_step productID location _ _ _ Hget Hold).
  - intros location s Hok.
    destruct (fst (RetrieveProductDetails productID s))
      as [product | e] eqn:Hget.
    2: { rewrite (LogProductMovement_err _ _ _ _ Hget) in Hok. discriminate. }
    destruct (storedHistory productID s) as [old |] eqn:Hold.
    2: { rewrite (LogProductMovement_ok _ _ _ _ Hget), Hold in Hok.
         discriminate. }
    destruct (LogProductMovement_step productID location _ _ _ Hget Hold)
      as (_ & Hstate & _ & Hnext).
    rewrite movementEntry_fields in Hstate, Hnext.
    exists product, old,
      match txSeconds s with
      | Some t => Z.to_N (t mod 2 ^ 64)
      | None => 0
      end.
    cbv zeta. split; [reflexivity |]. split; [reflexivity |].
    split; [| split; [| split; assumption]].
    + intros t. unfold GetTxTimestamp.
      destruct (txSeconds s) as [t' |]; simpl; [| discriminate].
      intros [= ->]. split; [reflexivity |].
      intros Hrange. f_equal. apply Z.mod_small. lia.
    + intros e. unfold GetTxTimestamp.
      destruct (txSeconds s) as [t' |]; simpl; [discriminate | reflexivity].
  - intros s product t1 t2 t3 l1 l2 l3 stamp entry e1 e2 e3 run
      Hget Habsent H1 H2 H3.
    assert (Hold : storedHistory productID s = Some []).
    { unfold storedHistory. now rewrite Habsent. }
    assert (Hentries :
      movementEntries product [(t1, l1); (t2, l2); (t3, l3)] = [e1; e2; e3]).
    { unfold movementEntries. simpl. now rewrite !movementEntry_fields. }
    destruct (LogProductMovements_append productID product
                [(t1, l1); (t2, l2); (t3, l3)] s [] Hget Hold)
      as [Hok Hhist].
    + rewrite Hentries. intros pre Hne [rest Hrest]. simpl in Hrest |- *.
      destruct pre as [| a [| b [| c [| d pre]]]]; simplify_eq/=;
        try assumption; congruence.
    + rewrite Hentries in Hhist. now repeat split.
Qed.

End Writes.

(** ** Identifiers *)

Lemma idsFrom_cons (c : N) (n : nat) :
  idsFrom c (S n) = (c + 1) :: idsFrom (c + 1) n.
Proof.
  unfold idsFrom. simpl. f_equal.
  rewrite <- seq_shift, map_map. apply map_ext.
  intros k. lia.
Qed.

Lemma idsFrom_length (c : N) (n : nat) : length (idsFrom c n) = n.
Proof. unfold idsFrom. now rewrite length_map, length_seq. Qed.

Lemma idsFrom_lookup (c : N) (n k : nat) (id : N) :
  idsFrom c n !! k = Some id -> id = c + 1 + N.of_nat k.
Proof.
  revert c k. induction n as [| n IH]; intros c k.
  - discriminate.
  - rewrite idsFrom_cons. destruct k as [| k]; simpl.
    + intros [= <-]. lia.
    + intros H. apply IH in H. lia.
Qed.

Lemma idsFrom_NoDup (c : N) (n : nat) : NoDup (idsFrom c n).
Proof.
  assert (Hinj : Inj (=) (=) (fun k : nat => c + N.of_nat k)).
  { intros j k H. lia. }
  unfold idsFrom. apply (NoDup_fmap_2 _). apply NoDup_seq.
Qed.

Section Allocation.
Context `{codec : Codec} `{allocator : Allocator}.

Lemma add64_small (a b : N) : a + b < 2 ^ 64 -> add64 a b = a + b.
Proof. intros H. unfold add64. now apply N.mod_small. Qed.

Lemma add64_bound (a b : N) : add64 a b < 2 ^ 64.
Proof. unfold add64. now apply N.mod_lt. Qed.

Lemma generateNextProductID_eq (s : Stub) (c : N) :
  counterValue s = Some c ->
  generateNextProductID s
  = (Ok (add64 c 1),
     withState (<[counterKey := encodeCounter (add64 c 1)]> (state s)) s).
Proof.
  unfold counterValue, generateNextProductID, bind, host, GetState, PutState.
  simpl. destruct (state s !! counterKey) as [b |].
  - intros ->. reflexivity.
  - intros [= <-]. reflexivity.
Qed.

Lemma AddProduct_id_eq (name description : string) (date : N)
    (batch : string) (s : Stub) (c : N) :
  counterValue s = Some c ->
  AddProduct_id name description date batch s
  = (Ok (add64 c 1),
     withState
       (<[productKey (add64 c 1) :=
            bytes_of_Product
              (mkProduct (add64 c 1) name description date batch
                 PRODUCT_REGISTERED)]>
          (<[counterKey := encodeCounter (add64 c 1)]> (state s))) s).
Proof.
  intros Hc. unfold AddProduct_id, bind at 1.
  rewrite (generateNextProductID_eq _ _ Hc). reflexivity.
Qed.

Lemma AddProduct_id_counter (name description : string) (date : N)
    (batch : string) (s : Stub) (c : N) :
  counterReadsBack -> counterKeyReserved ->
  counterValue s = Some c ->
  counterValue (snd (AddProduct_id name description date batch s))
  = Some (add64 c 1).
Proof.
  intros Hback Hres Hc. rewrite (AddProduct_id_eq _ _ _ _ _ _ Hc).
  unfold counterValue. simpl.
  rewrite lookup_insert_ne; [| intros Heq; now apply (Hres (add64 c 1))].
  rewrite lookup_insert_eq. apply Hback.
Qed.

(** Sequential calls that stay below the wrap. *)
Lemma AddProducts_ids (calls : list Registration) :
  counterReadsBack -> counterKeyReserved ->
  forall (s : Stub) (c : N),
    counterValue s = Some c ->
    c + N.of_nat (length calls) < 2 ^ 64 ->
    exists s' : Stub,
      AddProducts calls s = (Ok (idsFrom c (length calls)), s')
      /\ counterValue s' = Some (c + N.of_nat (length calls)).
Proof.
  intros Hback Hres.
  induction calls as [| r calls IH]; intros s c Hc Hbound.
  - exists s. simpl. split; [reflexivity |]. rewrite Hc. f_equal. lia.
  - cbn [length] in Hbound.
    assert (Hone : add64 c 1 = c + 1) by (apply add64_small; lia).
    pose proof (AddProduct_id_counter (regName r) (regDescription r)
                  (regManufactureDate r) (regBatchNumber r) s c
                  Hback Hres Hc) as Hnext.
    cbn [AddProducts length]. unfold bind.
    rewrite (AddProduct_id_eq _ _ _ _ _ _ Hc) in Hnext |- *.
    cbn [snd] in Hnext. rewrite Hone in Hnext |- *.
    destruct (IH _ _ Hnext) as (s' & Hrun & Hcount); [lia |].
    rewrite Hrun. exists s'. split.
    + unfold ret. now rewrite idsFrom_cons.
    + rewrite Hcount. f_equal. lia.
Qed.

(** C2 (as amended).  Each [AddProduct] call takes as its id the stored
    counter plus one as a [uint64], an absent counter counting as zero, and
    stores that id as the new counter.  As long as the counter stays below
    [2^64] over the calls, the id is the counter plus one, and the ids of
    sequential calls are [c + 1, c + 2, ...]: pairwise distinct, each one
    more than the one before, each below [2^64]. *)
Theorem AddProduct_ids_consecutive (calls : list Registration) (s : Stub)
    (c : N) :
  counterReadsBack -> counterKeyReserved ->
  counterValue s = Some c ->
  c + N.of_nat (length calls) < 2 ^ 64 ->
  (state s !! counterKey = None -> c = 0)
  /\ (forall (name description : string) (date : N) (batch : string),
        let run := AddProduct_id name description date batch s in
        fst run = Ok ((c + 1) mod 2 ^ 64)
        /\ counterValue (snd run) = Some ((c + 1) mod 2 ^ 64)
        /\ (c + 1 < 2 ^ 64 ->
            fst run = Ok (c + 1) /\ counterValue (snd run) = Some (c + 1))
        /\ AddProduct name description date batch s = (Ok tt, snd run))
  /\ (exists ids : list N,
        fst (AddProducts calls s) = Ok ids
        /\ length ids = length calls
        /\ NoDup ids
        /\ (forall (k : nat) (id : N),
              ids !! k = Some id ->
              id = c + 1 + N.of_nat k /\ id < 2 ^ 64)
        /\ (forall (k : nat) (id id' : N),
              ids !! k = Some id -> ids !! S k = Some id' -> id' = id + 1)
        /\ counterValue (snd (AddProducts calls s))
           = Some (c + N.of_nat (length calls))).
Proof.
  intros Hback Hres Hc Hbound. split; [| split].
  - intros Habsent. unfold counterValue in Hc. rewrite Habsent in Hc.
    now injection Hc.
  - intros name description date batch run. subst run.
    pose proof (AddProduct_id_counter name description date batch s c
                  Hback Hres Hc) as Hcount.
    rewrite (AddProduct_id_eq _ _ _ _ _ _ Hc) in Hcount |- *.
    cbn [fst snd] in Hcount |- *. unfold add64 in Hcount |- *.
    split; [reflexivity |]. split; [exact Hcount |]. split.
    + intros Hsmall. rewrite N.mod_small in Hcount |- * by assumption.
      now split.
    + unfold AddProduct, bind.
      rewrite (AddProduct_id_eq _ _ _ _ _ _ Hc). reflexivity.
  - destruct (AddProducts_ids calls Hback Hres s c Hc Hbound)
      as (s' & Hrun & Hcount).
    rewrite Hrun. cbn [fst snd].
    exists (idsFrom c (length calls)).
    split; [reflexivity |].
    split; [apply idsFrom_length |].
    split; [apply idsFrom_NoDup |].
    split.
    { intros k id Hk.
      pose proof (lookup_lt_Some _ _ _ Hk) as Hlt.
      rewrite idsFrom_length in Hlt.
      apply idsFrom_lookup in Hk. split; [exact Hk | lia]. }
    split; [| exact Hcount].
    intros k id id' Hk HSk.
    apply idsFrom_lookup in Hk, HSk. lia.
Qed.

(** What [RetrieveProductDetails] finds after [AddProduct]: the JSON parse of
    the bytes the conversion gave. *)
Lemma AddProduct_then_Retrieve (name description : string) (date : N)
    (batch : string) (s : Stub) (c : N) :
  counterValue s = Some c ->
  let id := add64 c 1 in
  let product :=
    mkProduct id name description date batch PRODUCT_REGISTERED in
  let s' := snd (AddProduct name description date batch s) in
  state s' !! productKey id = Some (bytes_of_Product product)
  /\ fst (RetrieveProductDetails id s')
     = match json_Unmarshal_Product (bytes_of_Product product) with
       | Some read => Ok read
       | None => Err ErrUnmarshalProduct
       end.
Proof.
  intros Hc. cbv zeta. unfold AddProduct, bind.
  rewrite (AddProduct_id_eq _ _ _ _ _ _ Hc). simpl.
  rewrite RetrieveProductDetails_eq. simpl.
  rewrite lookup_insert_eq. now split.
Qed.

(** Had [AddProduct] stored the JSON form, as [UpdateProductState] does, the
    record would read back whenever its JSON form does. *)
Lemma AddProduct_then_Retrieve_marshalled (name description : string)
    (date : N) (batch : string) (s : Stub) (c : N) :
  (forall p : Product, bytes_of_Product p = json_Marshal_Product p) ->
  counterValue s = Some c ->
  let id := add64 c 1 in
  let product :=
    mkProduct id name description date batch PRODUCT_REGISTERED in
  productReadsBack product ->
  fst (RetrieveProductDetails id
         (snd (AddProduct name description date batch s)))
  = Ok product.
Proof.
  intros Hsame Hc id product Hback. subst product id.
  destruct (AddProduct_then_Retrieve name description date batch s c Hc)
    as [_ ->].
  rewrite Hsame. now rewrite Hback.
Qed.

End Allocation.

(** ** The reference allocator satisfies its laws *)

Lemma Ref_counterReadsBack : @counterReadsBack Ref.allocator.
Proof.
  intros n. simpl. unfold Ref.parseCounter, decimal.
  rewrite string_of_list_byte_of_string, NilEmpty.usu.
  now rewrite Unsigned.of_to.
Qed.

Lemma Ref_counterKeyReserved : @counterKeyReserved Ref.allocator.
Proof. intros productID. unfold productKey. simpl. discriminate. Qed.

(** ** Registration and reading back *)

(** C1.  (Fails on the code.)  The claim: [AddProduct] followed by
    [RetrieveProductDetails] on the id it used gives back a record in
    [PRODUCT_REGISTERED] with the supplied fields.  What the code does:
    [AddProduct] stores the bytes of the conversion [[]byte(product)], not
    the JSON form, so the read gives the supplied record exactly when the
    JSON parser happens to read that conversion as the record.  With the
    reference codec, on an empty ledger, the read after
    [AddProduct("Widget", "A widget", 1700000000, "B-1")] fails to decode,
    although the JSON form of the same record reads back. *)
Theorem AddProduct_stores_conversion_not_JSON :
  (forall (codec : Codec) (allocator : Allocator)
          (name description : string) (date : N) (batch : string)
          (s : Stub) (c : N),
     counterValue s = Some c ->
     let id := (c + 1) mod 2 ^ 64 in
     let product :=
       mkProduct id name description date batch PRODUCT_REGISTERED in
     let s' := snd (AddProduct name description date batch s) in
     state s' !! productKey id = Some (bytes_of_Product product)
     /\ (fst (RetrieveProductDetails id s') = Ok product
         <-> json_Unmarshal_Product (bytes_of_Product product) = Some product))
  /\ (let product :=
        mkProduct 1 "Widget" "A widget" 1700000000 "B-1" PRODUCT_REGISTERED in
      let s' :=
        snd (@AddProduct Ref.codec Ref.allocator
               "Widget" "A widget" 1700000000 "B-1" (Ref.emptyStub 0)) in
      fst (@RetrieveProductDetails Ref.codec 1 s') = Err ErrUnmarshalProduct
      /\ @productReadsBack Ref.codec product).
Proof.
  split.
  - intros codec allocator name description date batch s c Hc id product s'.
    destruct (AddProduct_then_Retrieve name description date batch s c Hc)
      as [Hstored Hread].
    unfold add64 in Hstored, Hread. cbv zeta in Hstored, Hread.
    subst s' product id. split; [exact Hstored |]. rewrite Hread.
    destruct (json_Unmarshal_Product (bytes_of_Product _)) as [read |].
    + split; intros [= ->]; reflexivity.
    + split; discriminate.
  - cbv zeta. split; vm_compute; reflexivity.
Qed.

(** ** The theorems at concrete inputs *)

Section Witnesses.
Import Ref.

Example AddProducts_three :
  fst (AddProducts
         [mkRegistration "Widget" "A widget" 1700000000 "B-1";
          mkRegistration "Gadget" "A gadget" 1700000001 "B-1";
          mkRegistration "Widget" "A widget" 1700000000 "B-1"]
         (emptyStub 0))
  = Ok [1; 2; 3].
Proof. vm_compute. reflexivity. Qed.

Example UpdateProductState_widget_to_transit :
  fst (bind (UpdateProductState 1 PRODUCT_TRANSIT)
         (fun _ => RetrieveProductDetails 1) (stubWith widget 0))
  = Ok (set_State widget PRODUCT_TRANSIT).
Proof. vm_compute. reflexivity. Qed.

Example UpdateProductState_sold_to_pending :
  fst (UpdateProductState 1 PENDING
         (stubWith (set_State widget PRODUCT_SOLD) 0))
  = Ok tt.
Proof. vm_compute. reflexivity. Qed.

Example LogProductMovement_garbage_history :
  LogProductMovement 1 "Warehouse A"
    (withState (<[historyKey 1 := list_byte_of_string "[{]"]>
                  (state (stubWith widget 0))) (stubWith widget 0))
  = (Err ErrUnmarshalHistory,
     withState (<[historyKey 1 := list_byte_of_string "[{]"]>
                  (state (stubWith widget 0))) (stubWith widget 0)).
Proof. vm_compute. reflexivity. Qed.

Lemma AddProduct_ids_consecutive_witness :
  counterValue (emptyStub 0) = Some 0
  /\ exists ids : list N,
       fst (AddProducts
              [mkRegistration "Widget" "A widget" 1700000000 "B-1";
               mkRegistration "Gadget" "A gadget" 1700000001 "B-2"]
              (emptyStub 0)) = Ok ids
       /\ NoDup ids
       /\ forall (k : nat) (id id' : N),
            ids !! k = Some id -> ids !! S k = Some id' -> id' = id + 1.
Proof.
  split; [reflexivity |].
  destruct (AddProduct_ids_consecutive
              [mkRegistration "Widget" "A widget" 1700000000 "B-1";
               mkRegistration "Gadget" "A gadget" 1700000001 "B-2"]
              (emptyStub 0) 0
              Ref_counterReadsBack Ref_counterKeyReserved eq_refl eq_refl)
    as (_ & _ & ids & Hrun & _ & Hdistinct & _ & Hnext & _).
  exists ids. split; [exact Hrun |]. split; assumption.
Defined.

Lemma UpdateProductState_policy_witness :
  fst (RetrieveProductDetails 1 (stubWith widget 0)) = Ok widget
  /\ fst (UpdateProductState 1 PRODUCT_TRANSIT (stubWith widget 0)) = Ok tt
  /\ failsWith (fst (UpdateProductState 1 PRODUCT_SOLD (stubWith widget 0)))
       InvalidTransitionError.
Proof.
  assert (Hget : fst (RetrieveProductDetails 1 (stubWith widget 0))
                 = Ok widget) by (vm_compute; reflexivity).
  split; [exact Hget |]. split.
  - destruct (UpdateProductState_policy 1 PRODUCT_TRANSIT _ _ Hget)
      as (Haccept & _ & _).
    apply Haccept; reflexivity.
  - destruct (UpdateProductState_policy 1 PRODUCT_SOLD _ _ Hget)
      as (_ & Hreject & _).
    apply Hreject; [reflexivity | discriminate].
Defined.

Lemma UpdateProductState_writes_witness :
  fst (UpdateProductState 1 PRODUCT_TRANSIT (stubWith widget 0)) = Ok tt
  /\ exists product : Product,
       state (snd (UpdateProductState 1 PRODUCT_TRANSIT (stubWith widget 0)))
       = <[productKey 1 :=
             json_Marshal_Product (set_State product PRODUCT_TRANSIT)]>
           (state (stubWith widget 0)).
Proof.
  assert (Hok : fst (UpdateProductState 1 PRODUCT_TRANSIT (stubWith widget 0))
                = Ok tt) by (vm_compute; reflexivity).
  split; [exact Hok |].
  destruct (UpdateProductState_writes 1 PRODUCT_TRANSIT (stubWith widget 0))
    as [_ Hwrites].
  destruct (Hwrites Hok) as (product & _ & _ & Hstate & _).
  exists product. exact Hstate.
Defined.

Lemma UpdateProductState_rejected_no_write_witness :
  fst (RetrieveProductDetails 1 (stubWith widget 0)) = Ok widget
  /\ State widget = PRODUCT_REGISTERED
  /\ PRODUCT_SOLD <> PRODUCT_TRANSIT
  /\ snd (UpdateProductState 1 PRODUCT_SOLD (stubWith widget 0))
     = stubWith widget 0.
Proof.
  assert (Hget : fst (RetrieveProductDetails 1 (stubWith widget 0))
                 = Ok widget) by (vm_compute; reflexivity).
  assert (Hne : PRODUCT_SOLD <> PRODUCT_TRANSIT) by discriminate.
  split; [exact Hget |]. split; [reflexivity |]. split; [exact Hne |].
  apply (UpdateProductState_rejected_no_write 1 PRODUCT_SOLD _ _
           Hget eq_refl Hne).
Defined.

Lemma LogProductMovement_no_record_witness :
  state (stubWith widget 0) !! productKey 2 = None
  /\ failsWith (fst (LogProductMovement 2 "Warehouse A" (stubWith widget 0)))
       NotFoundError
  /\ snd (LogProductMovement 2 "Warehouse A" (stubWith widget 0))
     = stubWith widget 0.
Proof.
  assert (Habsent : state (stubWith widget 0) !! productKey 2 = None)
    by (vm_compute; reflexivity).
  split; [exact Habsent |].
  destruct (LogProductMovement_no_record 2 "Warehouse A" _ Habsent)
    as (Hfail & Hsame & _).
  split; assumption.
Defined.

Lemma LogProductMovement_history_read_witness :
  fst (RetrieveProductDetails 1 (stubWith widget 7)) = Ok widget
  /\ state (stubWith widget 7) !! historyKey 1 = None
  /\ fst (LogProductMovement 1 "Warehouse A" (stubWith widget 7)) = Ok tt.
Proof.
  assert (Hget : fst (RetrieveProductDetails 1 (stubWith widget 7))
                 = Ok widget) by (vm_compute; reflexivity).
  assert (Habsent : state (stubWith widget 7) !! historyKey 1 = None)
    by (vm_compute; reflexivity).
  split; [exact Hget |]. split; [exact Habsent |].
  destruct (LogProductMovement_history_read 1 "Warehouse A" _ _ Hget)
    as [Hproceeds _].
  now rewrite (Hproceeds Habsent).
Defined.

Lemma LogProductMovement_appends_witness :
  fst (LogProductMovements 1
         [(Some 10%Z, "Warehouse A"); (Some 20%Z, "Warehouse A");
          (None, "Warehouse A")] (stubWith widget 0))
  = Ok tt
  /\ storedHistory 1
       (snd (LogProductMovements 1
               [(Some 10%Z, "Warehouse A"); (Some 20%Z, "Warehouse A");
                (None, "Warehouse A")] (stubWith widget 0)))
     = Some [History.mkProductHistory 10 "Movement" "Warehouse A"
               PRODUCT_REGISTERED;
             History.mkProductHistory 20 "Movement" "Warehouse A"
               PRODUCT_REGISTERED;
             History.mkProductHistory 0 "Movement" "Warehouse A"
               PRODUCT_REGISTERED].
Proof.
  destruct (LogProductMovement_appends 1) as (_ & _ & Hthree).
  destruct (Hthree (stubWith widget 0) widget
              (Some 10%Z) (Some 20%Z) None
              "Warehouse A" "Warehouse A" "Warehouse A")
    as (Hok & Hhist & _);
    try (vm_compute; reflexivity).
  split; assumption.
Defined.

(** C5, as first stated, fails: a movement in a transaction whose
    [GetTxTimestamp] fails succeeds all the same, and the entry it stores
    has the timestamp 0, which no timestamp source gave. *)
Lemma LogProductMovement_timestamp_not_from_source :
  fst (LogProductMovement 1 "Warehouse A" (withTx None (stubWith widget 0)))
  = Ok tt
  /\ (forall t : Z,
        fst (GetTxTimestamp (withTx None (stubWith widget 0))) <> Ok t)
  /\ storedHistory 1
       (snd (LogProductMovement 1 "Warehouse A"
               (withTx None (stubWith widget 0))))
     = Some [History.mkProductHistory 0 "Movement" "Warehouse A"
               PRODUCT_REGISTERED].
Proof.
  split; [vm_compute; reflexivity |].
  split; [intros t; discriminate |].
  vm_compute. reflexivity.
Qed.

(** C2, as first stated, fails at the end of [uint64]: from a stored
    counter of [2^64 - 2], two calls in a row use the ids [2^64 - 1] and 0,
    so the second id is not the first plus one and is not above it; and
    from a stored counter of [2^64 - 1] the id is 0, not the counter plus
    one. *)
Lemma AddProduct_ids_wrap :
  counterValue (counterStub 18446744073709551614)
  = Some 18446744073709551614
  /\ fst (AddProducts
            [mkRegistration "Widget" "A widget" 1700000000 "B-1";
             mkRegistration "Gadget" "A gadget" 1700000001 "B-2"]
            (counterStub 18446744073709551614))
     = Ok [18446744073709551615; 0]
  /\ ~ (forall (k : nat) (id id' : N),
          [18446744073709551615; 0] !! k = Some id ->
          [18446744073709551615; 0] !! S k = Some id' ->
          id' = id + 1)
  /\ ~ (18446744073709551615 < 0)
  /\ fst (AddProduct_id "Widget" "A widget" 1700000000 "B-1"
            (counterStub 18446744073709551615))
     = Ok 0.
Proof.
  split; [vm_compute; reflexivity |].
  split; [vm_compute; reflexivity |].
  split.
  - intros H.
    specialize (H 0%nat 18446744073709551615 0 eq_refl eq_refl).
    discriminate.
  - split; [lia | vm_compute; reflexivity].
Qed.

End Witnesses.

(** * Further properties of the chaincode *)

(** ** Keys of different products *)

Lemma decimal_no_dash (d : Decimal.uint) (s t : string) :
  NilEmpty.string_of_uint d <> s ++ String "-" t.
Proof.
  revert s.
  induction d as [| d IH | d IH | d IH | d IH | d IH | d IH | d IH | d IH
                  | d IH | d IH];
    intros [| a s] H; simpl in H; try discriminate;
    injection H as _ H; now apply IH in H.
Qed.

Lemma decimal_dash_split (d1 d2 : Decimal.uint) (t1 t2 : string) :
  NilEmpty.string_of_uint d1 ++ String "-" t1
  = NilEmpty.string_of_uint d2 ++ String "-" t2 ->
  NilEmpty.string_of_uint d1 = NilEmpty.string_of_uint d2.
Proof.
  revert d2.
  induction d1 as [| d1 IH | d1 IH | d1 IH | d1 IH | d1 IH | d1 IH | d1 IH
                   | d1 IH | d1 IH | d1 IH];
    intros [| d2 | d2 | d2 | d2 | d2 | d2 | d2 | d2 | d2 | d2] H;
    simpl in H |- *; try discriminate; try reflexivity;
    injection H as H; f_equal; now apply IH.
Qed.

Lemma historyKey_inj (i j : N) : historyKey i = historyKey j -> i = j.
Proof.
  unfold historyKey. intros H.
  apply (String.app_inj "PRODUCT-") in H.
  apply decimal_inj. unfold decimal. now apply decimal_dash_split in H.
Qed.

Lemma productKey_ne_any_historyKey (i j : N) : productKey i <> historyKey j.
Proof.
  unfold productKey, historyKey. intros H.
  apply (String.app_inj "PRODUCT-") in H.
  now apply decimal_no_dash in H.
Qed.

(** X1.  The keys the chaincode builds never collide: two products have
    different record keys and different history keys, and no record key is
    a history key, of the same product or of another. *)
Theorem keys_never_collide :
  (forall i j : N, productKey i = productKey j -> i = j)
  /\ (forall i j : N, historyKey i = historyKey j -> i = j)
  /\ (forall i j : N, productKey i <> historyKey j).
Proof.
  split; [exact productKey_inj |].
  split; [exact historyKey_inj | exact productKey_ne_any_historyKey].
Qed.

(** ** Calls that fail *)

Section Failures.
Context `{codec : Codec}.

(** X2.  [UpdateProductState] gives up with the error of the read, whatever
    the target: the does-not-exist error, naming the id, when nothing is
    stored under the record's key, and the unmarshal error when the stored
    bytes do not parse; in both cases it writes nothing. *)
Theorem UpdateProductState_unreadable (productID : N)
    (target : ProductState) (s : Stub) :
  (state s !! productKey productID = None ->
   UpdateProductState productID target s
   = (Err (ErrProductNotExist productID), s))
  /\ (forall b : bytes,
        state s !! productKey productID = Some b ->
        json_Unmarshal_Product b = None ->
        UpdateProductState productID target s = (Err ErrUnmarshalProduct, s)).
Proof.
  split.
  - intros Habsent. apply UpdateProductState_err.
    rewrite RetrieveProductDetails_eq, Habsent. reflexivity.
  - intros b Hb Hbad. apply UpdateProductState_err.
    rewrite RetrieveProductDetails_eq, Hb, Hbad. reflexivity.
Qed.

(** X3.  [LogProductMovement] reads the record before the history: when the
    bytes under the record's key do not parse, it fails with the unmarshal
    error of the record and writes nothing, whatever is stored under the
    history key, readable or not. *)
Theorem LogProductMovement_unreadable_record (productID : N)
    (location : string) (s : Stub) (b : bytes) :
  state s !! productKey productID = Some b ->
  json_Unmarshal_Product b = None ->
  LogProductMovement productID location s = (Err ErrUnmarshalProduct, s)
  /\ forall h : bytes,
       LogProductMovement productID location
         (withState (<[historyKey productID := h]> (state s)) s)
       = (Err ErrUnmarshalProduct,
          withState (<[historyKey productID := h]> (state s)) s).
Proof.
  intros Hb Hbad. split.
  - apply LogProductMovement_err.
    rewrite RetrieveProductDetails_eq, Hb, Hbad. reflexivity.
  - intros h. apply LogProductMovement_err.
    rewrite RetrieveProductDetails_eq. simpl.
    rewrite lookup_insert_ne, Hb, Hbad; [reflexivity |].
    intros Heq. now apply (productKey_ne_historyKey productID).
Qed.

End Failures.

(** ** Calls on one product and the rest of the ledger *)

Section Frames.
Context `{codec : Codec}.

(** [UpdateProductState] writes its record's key or nothing. *)
Lemma UpdateProductState_other_keys (productID : N) (target : ProductState)
    (s : Stub) (key : string) :
  key <> productKey productID ->
  state (snd (UpdateProductState productID target s)) !! key
  = state s !! key.
Proof.
  intros Hne.
  destruct (fst (RetrieveProductDetails productID s))
    as [product | e] eqn:Hget.
  - rewrite (UpdateProductState_ok _ _ _ _ Hget).
    destruct (_ && _); simpl; [reflexivity |].
    now apply lookup_insert_ne.
  - now rewrite (UpdateProductState_err _ _ _ _ Hget).
Qed.

(** [LogProductMovement] writes its history key or nothing. *)
Lemma LogProductMovement_other_keys (productID : N) (location : string)
    (s : Stub) (key : string) :
  key <> historyKey productID ->
  state (snd (LogProductMovement productID location s)) !! key
  = state s !! key.
Proof.
  intros Hne.
  destruct (fst (RetrieveProductDetails productID s))
    as [product | e] eqn:Hget.
  - rewrite (LogProductMovement_ok _ _ _ _ Hget).
    destruct (storedHistory productID s); simpl; [| reflexivity].
    now apply lookup_insert_ne.
  - now rewrite (LogProductMovement_err _ _ _ _ Hget).
Qed.

(** Reading a record, and reading a history, look at one key each. *)
Lemma RetrieveProductDetails_key (productID : N) (s1 s2 : Stub) :
  state s1 !! productKey productID = state s2 !! productKey productID ->
  fst (RetrieveProductDetails productID s1)
  = fst (RetrieveProductDetails productID s2).
Proof. intros H. rewrite !RetrieveProductDetails_eq. simpl. now rewrite H. Qed.

Lemma storedHistory_key (productID : N) (s1 s2 : Stub) :
  state s1 !! historyKey productID = state s2 !! historyKey productID ->
  storedHistory productID s1 = storedHistory productID s2.
Proof. unfold storedHistory. now intros ->. Qed.

(** X6.  [UpdateProductState] on one product, whether it succeeds or fails,
    leaves every other product's record as it reads, and every product's
    history, its own included. *)
Theorem UpdateProductState_isolated (productID : N) (target : ProductState)
    (s : Stub) :
  (forall other : N,
     other <> productID ->
     fst (RetrieveProductDetails other
            (snd (UpdateProductState productID target s)))
     = fst (RetrieveProductDetails other s))
  /\ (forall any : N,
        state (snd (UpdateProductState productID target s))
          !! historyKey any
        = state s !! historyKey any)
  /\ (forall any : N,
        storedHistory any (snd (UpdateProductState productID target s))
        = storedHistory any s).
Proof.
  split; [| split].
  - intros other Hne. apply RetrieveProductDetails_key.
    apply UpdateProductState_other_keys.
    intros Heq. apply Hne. now apply productKey_inj.
  - intros any. apply UpdateProductState_other_keys.
    intros Heq. symmetry in Heq.
    now apply productKey_ne_any_historyKey in Heq.
  - intros any. apply storedHistory_key.
    apply UpdateProductState_other_keys.
    intros Heq. symmetry in Heq.
    now apply productKey_ne_any_historyKey in Heq.
Qed.

(** X7.  [LogProductMovement] on one product, whether it succeeds or fails,
    leaves every product's record as it reads, its own included, and every
    other product's history. *)
Theorem LogProductMovement_isolated (productID : N) (location : string)
    (s : Stub) :
  (forall any : N,
     state (snd (LogProductMovement productID location s)) !! productKey any
     = state s !! productKey any)
  /\ (forall any : N,
        fst (RetrieveProductDetails any
               (snd (LogProductMovement productID location s)))
        = fst (RetrieveProductDetails any s))
  /\ (forall other : N,
        other <> productID ->
        storedHistory other (snd (LogProductMovement productID location s))
        = storedHistory other s).
Proof.
  split; [| split].
  - intros any. apply LogProductMovement_other_keys.
    apply productKey_ne_any_historyKey.
  - intros any. apply RetrieveProductDetails_key.
    apply LogProductMovement_other_keys.
    apply productKey_ne_any_historyKey.
  - intros other Hne. apply storedHistory_key.
    apply LogProductMovement_other_keys.
    intros Heq. apply Hne. now apply historyKey_inj.
Qed.

End Frames.

(** ** Traces of calls and the view of one product *)

Section Refinement.
Context `{codec : Codec}.




(** One call against the view. *)
Lemma runCall_view (productID : N) (c : Call) (s : Stub) (v : View) :
  fst (RetrieveProductDetails productID s) = Ok (fst v) ->
  storedHistory productID s = Some (snd v) ->
  readsBackAlong productID v [c] ->
  agrees (fst (runCall c s)) (answerView productID v c)
  /\ fst (RetrieveProductDetails productID (snd (runCall c s)))
     = Ok (fst (stepView productID v c))
  /\ storedHistory productID (snd (runCall c s))
     = Some (snd (stepView productID v c)).
Proof.
  intros Hget Hold [Hback _].
  destruct c as [productID' target | productID' now location]; simpl in *.
  - destruct (N.eqb_spec productID' productID) as [-> | Hne]; simpl in *.
    + rewrite (UpdateProductState_ok _ _ _ _ Hget).
      fold (rejects (State (fst v)) target).
      destruct (rejects (State (fst v)) target); simpl in *.
      * now repeat split.
      * split; [reflexivity |]. split.
        -- rewrite RetrieveProductDetails_eq. simpl.
           rewrite lookup_insert_eq. now rewrite Hback.
        -- rewrite <- Hold. apply storedHistory_key. simpl.
           apply lookup_insert_ne. apply productKey_ne_historyKey.
    + split; [exact I |]. split.
      * rewrite <- Hget. apply RetrieveProductDetails_key.
        apply UpdateProductState_other_keys.
        intros Heq. apply Hne. symmetry. now apply productKey_inj.
      * rewrite <- Hold. apply storedHistory_key.
        apply UpdateProductState_other_keys.
        intros Heq. symmetry in Heq.
        now apply productKey_ne_any_historyKey in Heq.
  - destruct (N.eqb_spec productID' productID) as [-> | Hne]; simpl in *.
    + assert (Hget1 : fst (RetrieveProductDetails productID (withTx now s))
                      = Ok (fst v)).
      { now rewrite (RetrieveProductDetails_state _ _ s). }
      assert (Hold1 : storedHistory productID (withTx now s) = Some (snd v)).
      { now rewrite (storedHistory_state _ _ s). }
      destruct (LogProductMovement_step productID location _ _ _ Hget1 Hold1)
        as (Hok & _ & Hget2 & Hnext).
      simpl in Hnext. split; [exact Hok |]. split; [exact Hget2 |].
      now apply Hnext, Hback.
    + split; [exact I |]. split.
      * rewrite <- Hget.
        rewrite <- (RetrieveProductDetails_state productID (withTx now s) s)
          by reflexivity.
        apply RetrieveProductDetails_key.
        apply LogProductMovement_other_keys.
        apply productKey_ne_any_historyKey.
      * rewrite <- Hold.
        rewrite <- (storedHistory_state productID (withTx now s) s)
          by reflexivity.
        apply storedHistory_key. apply LogProductMovement_other_keys.
        intros Heq. apply Hne. symmetry. now apply historyKey_inj.
Qed.

(** A trace against the view, by induction on the trace. *)
Lemma runCalls_view (productID : N) (cs : list Call) :
  forall (s : Stub) (v : View),
    fst (RetrieveProductDetails productID s) = Ok (fst v) ->
    storedHistory productID s = Some (snd v) ->
    readsBackAlong productID v cs ->
    Forall2 agrees (fst (runCalls cs s)) (answersView productID v cs)
    /\ fst (RetrieveProductDetails productID (snd (runCalls cs s)))
       = Ok (fst (runView productID v cs))
    /\ storedHistory productID (snd (runCalls cs s))
       = Some (snd (runView productID v cs)).
Proof.
  induction cs as [| c cs IH]; intros s v Hget Hold Hback.
  - simpl. split; [constructor |]. now split.
  - destruct Hback as [Hc Hrest].
    destruct (runCall_view productID c s v Hget Hold (conj Hc I))
      as (Hans & Hget1 & Hold1).
    simpl. destruct (runCall c s) as [r s1]. simpl in Hans, Hget1, Hold1.
    destruct (IH s1 _ Hget1 Hold1 Hrest) as (Hanss & Hget2 & Hold2).
    destruct (runCalls cs s1) as [rs s2]. simpl in *.
    split; [now constructor |]. now split.
Qed.

(** X8.  Whatever trace of transitions and movements runs, on whatever
    products, one product goes through it as its view tells: a transition
    of the product that the test lets through sets its state, a movement
    of the product adds one entry carrying the state of that moment, and a
    rejected transition and every call on another product leave record and
    history alone; the calls on the product answer as the view foretells.
    This holds when what the trace writes for the product reads back. *)
Theorem runCalls_follow_view (productID : N) (cs : list Call) (s : Stub)
    (product : Product) (old : list ProductHistory) :
  fst (RetrieveProductDetails productID s) = Ok product ->
  storedHistory productID s = Some old ->
  readsBackAlong productID (product, old) cs ->
  Forall2 agrees (fst (runCalls cs s))
    (answersView productID (product, old) cs)
  /\ fst (RetrieveProductDetails productID (snd (runCalls cs s)))
     = Ok (fst (runView productID (product, old) cs))
  /\ storedHistory productID (snd (runCalls cs s))
     = Some (snd (runView productID (product, old) cs)).
Proof. intros Hget Hold. now apply runCalls_view. Qed.



End Refinement.

(** ** The way through the states *)

Section Lifecycle.
Context `{codec : Codec}.

(** X11.  A record in [PRODUCT_REGISTERED] that has been moved to
    [PRODUCT_TRANSIT] accepts every target after that: the second
    transition succeeds whatever its target, and stores the record with
    that target as its state. *)
Theorem UpdateProductState_after_transit (productID : N) (s : Stub)
    (product : Product) (target : ProductState) :
  fst (RetrieveProductDetails productID s) = Ok product ->
  State product = PRODUCT_REGISTERED ->
  productReadsBack (set_State product PRODUCT_TRANSIT) ->
  let s1 := snd (UpdateProductState productID PRODUCT_TRANSIT s) in
  let s2 := snd (UpdateProductState productID target s1) in
  fst (UpdateProductState productID PRODUCT_TRANSIT s) = Ok tt
  /\ fst (UpdateProductState productID target s1) = Ok tt
  /\ state s2 !! productKey productID
     = Some (json_Marshal_Product (set_State product target)).
Proof.
  intros Hget Hreg Hback s1 s2. subst s2 s1.
  rewrite (UpdateProductState_ok _ _ _ _ Hget).
  rewrite rejected_false by (now intros _). simpl.
  split; [reflexivity |].
  rewrite (UpdateProductState_ok _ _ _ (set_State product PRODUCT_TRANSIT)).
  - simpl. split; [reflexivity |]. apply lookup_insert_eq.
  - rewrite RetrieveProductDetails_eq. simpl.
    rewrite lookup_insert_eq. now rewrite Hback.
Qed.

(** X12.  The test looks at the stored state only, not at where the record
    has been: a record in any other state can be set back to
    [PRODUCT_REGISTERED], and from there every target but [PRODUCT_TRANSIT]
    is rejected again, the store staying as the first transition left it. *)
Theorem UpdateProductState_back_to_registered (productID : N) (s : Stub)
    (product : Product) (target : ProductState) :
  fst (RetrieveProductDetails productID s) = Ok product ->
  State product <> PRODUCT_REGISTERED ->
  productReadsBack (set_State product PRODUCT_REGISTERED) ->
  target <> PRODUCT_TRANSIT ->
  let s1 := snd (UpdateProductState productID PRODUCT_REGISTERED s) in
  fst (UpdateProductState productID PRODUCT_REGISTERED s) = Ok tt
  /\ fst (RetrieveProductDetails productID s1)
     = Ok (set_State product PRODUCT_REGISTERED)
  /\ UpdateProductState productID target s1 = (Err ErrInvalidTransition, s1).
Proof.
  intros Hget Hother Hback Htarget s1. subst s1.
  rewrite (UpdateProductState_ok _ _ _ _ Hget).
  rewrite rejected_false by (intros Hreg; contradiction). simpl.
  assert (Hget1 :
    fst (RetrieveProductDetails productID
           (withState
              (<[productKey productID :=
                   json_Marshal_Product
                     (set_State product PRODUCT_REGISTERED)]>
                 (state s)) s))
    = Ok (set_State product PRODUCT_REGISTERED)).
  { rewrite RetrieveProductDetails_eq. simpl.
    rewrite lookup_insert_eq. now rewrite Hback. }
  split; [reflexivity |]. split; [exact Hget1 |].
  rewrite (UpdateProductState_ok _ _ _ _ Hget1).
  now rewrite rejected_true.
Qed.

(** ** The timestamp of a movement *)

Lemma uint64_of_int64 (t : Z) :
  (- 2 ^ 63 <= t < 2 ^ 63)%Z ->
  uint64 t = (if (t <? 0)%Z then Z.to_N (t + 2 ^ 64) else Z.to_N t)
  /\ uint64 t < 2 ^ 64.
Proof.
  intros Hrange. unfold uint64.
  assert (Hmod : (0 <= t mod 2 ^ 64 < 2 ^ 64)%Z)
    by (apply Z.mod_pos_bound; lia).
  split; [| lia].
  destruct (Z.ltb_spec t 0) as [Hneg | Hpos]; f_equal.
  - symmetry. apply (Z.mod_unique_pos _ _ (-1)); lia.
  - apply Z.mod_small. lia.
Qed.

(** X13.  The timestamp a movement records is the seconds of the
    transaction converted from [int64] to [uint64]: the seconds themselves
    when they are not negative, and the seconds plus [2^64] when they are;
    it is below [2^64] in both cases. *)
Theorem LogProductMovement_timestamp (productID : N) (location : string)
    (s : Stub) (product : Product) (old : list ProductHistory) (t : Z) :
  fst (RetrieveProductDetails productID s) = Ok product ->
  storedHistory productID s = Some old ->
  txSeconds s = Some t ->
  (- 2 ^ 63 <= t < 2 ^ 63)%Z ->
  let stamp := if (t <? 0)%Z then Z.to_N (t + 2 ^ 64) else Z.to_N t in
  stamp < 2 ^ 64
  /\ state (snd (LogProductMovement productID location s))
       !! historyKey productID
     = Some (json_Marshal_Histories
               (old ++ [History.mkProductHistory stamp "Movement" location
                          (State product)])%list).
Proof.
  intros Hget Hold Ht Hrange stamp.
  destruct (uint64_of_int64 t Hrange) as [Hstamp Hbound].
  fold stamp in Hstamp. rewrite <- Hstamp. split; [exact Hbound |].
  destruct (LogProductMovement_step productID location _ _ _ Hget Hold)
    as (_ & Hstate & _).
  rewrite Hstate, lookup_insert_eq, Ht. reflexivity.
Qed.

(** X14.  [LogProductMovement] drops the error of [GetTxTimestamp]: when
    the transaction has no timestamp to give, the movement is recorded all
    the same, with the timestamp 0. *)
Theorem LogProductMovement_without_timestamp (productID : N)
    (location : string) (s : Stub) (product : Product)
    (old : list ProductHistory) :
  fst (RetrieveProductDetails productID s) = Ok product ->
  storedHistory productID s = Some old ->
  txSeconds s = None ->
  fst (LogProductMovement productID location s) = Ok tt
  /\ state (snd (LogProductMovement productID location s))
       !! historyKey productID
     = Some (json_Marshal_Histories
               (old ++ [History.mkProductHistory 0 "Movement" location
                          (State product)])%list).
Proof.
  intros Hget Hold Hnone.
  destruct (LogProductMovement_step productID location _ _ _ Hget Hold)
    as (Hok & Hstate & _).
  split; [exact Hok |].
  rewrite Hstate, lookup_insert_eq, Hnone. reflexivity.
Qed.

End Lifecycle.

Section Interleaving.
Context `{codec : Codec}.

(** X15.  Each entry carries the state the record had when its movement
    was logged: of two movements with an accepted transition between them,
    the first entry shows the state before the transition and the second
    the target; all three calls succeed and the history grows by these two
    entries, in this order. *)
Theorem movements_show_state_of_the_moment (productID : N) (s : Stub)
    (product : Product) (old : list ProductHistory)
    (t1 t2 : option Z) (l1 l2 : string) (target : ProductState) :
  let e1 := movementEntry t1 l1 product in
  let e2 := movementEntry t2 l2 (set_State product target) in
  let run :=
    runCalls [Movement productID t1 l1; Transition productID target;
              Movement productID t2 l2] s in
  fst (RetrieveProductDetails productID s) = Ok product ->
  storedHistory productID s = Some old ->
  policyAccepts (State product) target ->
  historyReadsBack (old ++ [e1])%list ->
  productReadsBack (set_State product target) ->
  historyReadsBack (old ++ [e1; e2])%list ->
  fst run = [Ok tt; Ok tt; Ok tt]
  /\ storedHistory productID (snd run) = Some (old ++ [e1; e2])%list
  /\ History.State e1 = State product
  /\ History.State e2 = target.
Proof.
  intros e1 e2 run Hget Hold Hacc Hback1 Hbackp Hback2.
  pose proof (rejected_false _ _ Hacc) as Hrej.
  fold (rejects (State product) target) in Hrej.
  destruct (runCalls_view productID
              [Movement productID t1 l1; Transition productID target;
               Movement productID t2 l2] s (product, old) Hget Hold)
    as (Hans & _ & Hhist).
  { cbn [readsBackAlong stepView].
    repeat first [ rewrite N.eqb_refl | rewrite Hrej
                 | progress cbn [negb andb fst snd] ].
    rewrite <- app_assoc. now repeat split. }
  fold run in Hans, Hhist.
  cbn [answersView answerView runView fold_left stepView] in Hans, Hhist.
  repeat first [ rewrite N.eqb_refl in Hans, Hhist
               | rewrite Hrej in Hans, Hhist
               | progress cbn [negb andb fst snd] in Hans, Hhist ].
  rewrite <- app_assoc in Hhist.
  split; [| now repeat split].
  inversion Hans as [| r1 o1 rs1 os1 H1 Hans1]; subst.
  inversion Hans1 as [| r2 o2 rs2 os2 H2 Hans2]; subst.
  inversion Hans2 as [| r3 o3 rs3 os3 H3 Hans3]; subst.
  inversion Hans3; subst.
  simpl in H1, H2, H3. now subst.
Qed.

End Interleaving.

(** ** The further properties at concrete inputs *)

Section MoreWitnesses.
Import Ref.

Example trace_answers :
  fst (runCalls trace (stubWith widget 0))
  = [Ok tt; Err ErrInvalidTransition; Err (ErrProductNotExist 2); Ok tt;
     Err (ErrProductNotExist 2); Ok tt].
Proof. vm_compute. reflexivity. Qed.

Example trace_view :
  runView 1 (widget, []) trace
  = (set_State widget PRODUCT_TRANSIT,
     [movementEntry (Some 10%Z) "Warehouse A" widget;
      movementEntry (Some 20%Z) "Dock 4"
        (set_State widget PRODUCT_TRANSIT)]).
Proof. reflexivity. Qed.

Lemma trace_readsBack : readsBackAlong 1 (widget, []) trace.
Proof.
  vm_compute. repeat split; intros; try discriminate; reflexivity.
Qed.

Lemma stubWith_widget_record :
  fst (RetrieveProductDetails 1 (stubWith widget 0)) = Ok widget.
Proof. vm_compute. reflexivity. Qed.

Lemma stubWith_widget_history : storedHistory 1 (stubWith widget 0) = Some [].
Proof. vm_compute. reflexivity. Qed.

Lemma LogProductMovement_unreadable_record_witness :
  LogProductMovement 1 "Warehouse A" (brokenStub 0)
  = (Err ErrUnmarshalProduct, brokenStub 0).
Proof.
  apply (LogProductMovement_unreadable_record 1 "Warehouse A" (brokenStub 0)
           (list_byte_of_string "{"));
    vm_compute; reflexivity.
Defined.

Lemma runCalls_follow_view_witness :
  readsBackAlong 1 (widget, []) trace
  /\ fst (RetrieveProductDetails 1 (snd (runCalls trace (stubWith widget 0))))
     = Ok (fst (runView 1 (widget, []) trace))
  /\ storedHistory 1 (snd (runCalls trace (stubWith widget 0)))
     = Some (snd (runView 1 (widget, []) trace)).
Proof.
  split; [exact trace_readsBack |].
  destruct (runCalls_follow_view 1 trace (stubWith widget 0) widget []
              stubWith_widget_record stubWith_widget_history
              trace_readsBack)
    as (_ & Hrecord & Hhistory).
  split; assumption.
Defined.



Lemma UpdateProductState_after_transit_witness :
  fst (UpdateProductState 1 PENDING
         (snd (UpdateProductState 1 PRODUCT_TRANSIT (stubWith widget 0))))
  = Ok tt.
Proof.
  destruct (UpdateProductState_after_transit 1 (stubWith widget 0) widget
              PENDING stubWith_widget_record)
    as (_ & Hsecond & _);
    [reflexivity | vm_compute; reflexivity | exact Hsecond].
Defined.

Lemma UpdateProductState_back_to_registered_witness :
  let s1 :=
    snd (UpdateProductState 1 PRODUCT_REGISTERED
           (stubWith (set_State widget PRODUCT_SOLD) 0)) in
  UpdateProductState 1 PRODUCT_SOLD s1 = (Err ErrInvalidTransition, s1).
Proof.
  cbv zeta.
  destruct (UpdateProductState_back_to_registered 1
              (stubWith (set_State widget PRODUCT_SOLD) 0)
              (set_State widget PRODUCT_SOLD) PRODUCT_SOLD)
    as (_ & _ & Hrejected);
    [vm_compute; reflexivity | discriminate | vm_compute; reflexivity
    | discriminate | exact Hrejected].
Defined.

Lemma LogProductMovement_timestamp_witness :
  state (snd (LogProductMovement 1 "Warehouse A" (stubWith widget (-1))))
    !! historyKey 1
  = Some (json_Marshal_Histories
            [History.mkProductHistory 18446744073709551615 "Movement"
               "Warehouse A" PRODUCT_REGISTERED]).
Proof.
  destruct (LogProductMovement_timestamp 1 "Warehouse A"
              (stubWith widget (-1)) widget [] (-1))
    as [_ Hstored];
    [vm_compute; reflexivity | vm_compute; reflexivity | reflexivity | lia
    | exact Hstored].
Defined.

Lemma LogProductMovement_without_timestamp_witness :
  fst (LogProductMovement 1 "Warehouse A" (withTx None (stubWith widget 0)))
  = Ok tt.
Proof.
  destruct (LogProductMovement_without_timestamp 1 "Warehouse A"
              (withTx None (stubWith widget 0)) widget [])
    as [Hok _];
    [vm_compute; reflexivity | vm_compute; reflexivity | reflexivity
    | exact Hok].
Defined.

Lemma movements_show_state_of_the_moment_witness :
  storedHistory 1
    (snd (runCalls [Movement 1 (Some 10%Z) "Warehouse A";
                    Transition 1 PRODUCT_TRANSIT;
                    Movement 1 (Some 20%Z) "Dock 4"] (stubWith widget 0)))
  = Some [movementEntry (Some 10%Z) "Warehouse A" widget;
          movementEntry (Some 20%Z) "Dock 4"
            (set_State widget PRODUCT_TRANSIT)].
Proof.
  destruct (movements_show_state_of_the_moment 1 (stubWith widget 0) widget
              [] (Some 10%Z) (Some 20%Z) "Warehouse A" "Dock 4"
              PRODUCT_TRANSIT)
    as (_ & Hhistory & _);
    [vm_compute; reflexivity | vm_compute; reflexivity | now intros _
    | vm_compute; reflexivity | vm_compute; reflexivity
    | vm_compute; reflexivity | exact Hhistory].
Defined.

End MoreWitnesses.
